(** * optimize_images.py: batch recompression of JPEG/PNG files to WebP

    A shallow embedding of [src/optimize_images.py] and the properties of
    its four functions: [analyze_image_quality], [convert_to_webp],
    [process_directory] and [main].

    Conventions of the embedding.
    - Python [int] is [Z]; [bytes] is [list byte]; [str] is [string].
    - Python [float] is modelled by exact rationals [Q]: the similarity
      score is the exact quotient, and the literal [0.95] is [95/100].
    - Exceptions are values of [exn]; a computation that may raise returns
      a [res].  Code that touches the disk or the log runs in the monad
      [M], which threads a [World] (the files on disk and the trace of
      observable effects) and keeps the world reached when it raises.
    - The collaborators that are not part of the repository (Pillow, the
      operating system, [pathlib]'s globbing) are the classes [Codec] and
      [OS].  The theorems hold for all their instances; the ones about
      what is enumerated take [pathlib]'s globbing, modelled over a flat
      map from paths to entries, as the globbing of the [OS].
    - The process pool is modelled as running the per-file tasks one
      after another, in the order of the file list, which is the order in
      which [executor.map] hands the results back. *)

From Stdlib Require Import ZArith QArith Lqa Strings.String Strings.Ascii Strings.Byte Lia.
From stdpp Require Import gmap strings list.

Open Scope Z_scope.

(** ** Python values and exceptions *)

Abbreviation bytes := (list byte).
Abbreviation Path := (list string).

(** [len(x)] for a sequence. *)
Definition len {A : Type} (l : list A) : Z := Z.of_nat (length l).

Inductive exn : Type :=
| FileNotFoundError
| IsADirectoryError
| NotADirectoryError
| PermissionError
| OSError
| ValueError
| ZeroDivisionError
| UnidentifiedImageError.

Inductive res (A : Type) : Type :=
| Ok (a : A)
| Raise (e : exn).
Arguments Ok {A} a.
Arguments Raise {A} e.

Global Instance res_ret : MRet res := λ A a, Ok a.
Global Instance res_bind : MBind res := λ A B f m,
  match m with
  | Ok a => f a
  | Raise e => Raise e
  end.

(** ** Names, suffixes and patterns ([pathlib], [fnmatch]) *)

Module Names.

Open Scope string_scope.

(** [s.rfind(c)], with [None] for Python's [-1]. *)
Fixpoint rfind (c : ascii) (s : string) : option nat :=
  match s with
  | EmptyString => None
  | String a s' =>
      match rfind c s' with
      | Some i => Some (S i)
      | None => if Ascii.eqb a c then Some 0%nat else None
      end
  end.

(** [PurePath.suffix]: the part of the name from its last dot, when that
    dot is neither the first nor the last character. *)
Definition suffix (name : string) : string :=
  match rfind "." name with
  | Some i =>
      if (0 <? i)%nat && (i <? String.length name - 1)%nat
      then substring i (String.length name - i) name
      else ""
  | None => ""
  end.

(** The new name computed by [PurePath.with_suffix]. *)
Definition replace_suffix (name new_suffix : string) : string :=
  let old_suffix := suffix name in
  if String.eqb old_suffix ""
  then name ++ new_suffix
  else substring 0 (String.length name - String.length old_suffix) name ++ new_suffix.

(** [PurePath.name]: the last component ([""] for a path without one). *)
Definition path_name (p : Path) : string := List.last p "".

(** [PurePath.with_suffix(suffix)]; a path with an empty name raises
    [ValueError]. *)
Definition with_suffix (p : Path) (new_suffix : string) : res Path :=
  if String.eqb (path_name p) ""
  then Raise ValueError
  else Ok (removelast p ++ [replace_suffix (path_name p) new_suffix])%list.

(** [fnmatch] for patterns built from literal characters, [*] and [?]
    (character classes do not occur in the program's patterns). *)
Fixpoint fnmatch (pat : string) : string → bool :=
  match pat with
  | EmptyString => fun s => String.eqb s ""
  | String c pat' =>
      if Ascii.eqb c "*" then
        fix star (s : string) : bool :=
          fnmatch pat' s
          || match s with
             | EmptyString => false
             | String _ s' => star s'
             end
      else if Ascii.eqb c "?" then
        fun s => match s with
                 | EmptyString => false
                 | String _ s' => fnmatch pat' s'
                 end
      else
        fun s => match s with
                 | EmptyString => false
                 | String a s' => Ascii.eqb a c && fnmatch pat' s'
                 end
  end.

(** ASCII lower-casing, the case folding of a case-insensitive platform. *)
Definition lower_ascii (a : ascii) : ascii :=
  let n := nat_of_ascii a in
  if (65 <=? n)%nat && (n <=? 90)%nat then ascii_of_nat (n + 32) else a.

Fixpoint lower (s : string) : string :=
  match s with
  | EmptyString => EmptyString
  | String a s' => String (lower_ascii a) (lower s')
  end.

(** Pattern and name are compared as they are on a case-sensitive
    platform and case-folded on a case-insensitive one. *)
Definition normcase (case_sensitive : bool) (s : string) : string :=
  if case_sensitive then s else lower s.

Definition glob_match (case_sensitive : bool) (pat name : string) : bool :=
  fnmatch (normcase case_sensitive pat) (normcase case_sensitive name).

(** [s] ends with [suf]: some tail of [s] is [suf]. *)
Fixpoint ends_with (suf s : string) : bool :=
  String.eqb s suf
  || match s with
     | EmptyString => false
     | String _ s' => ends_with suf s'
     end.

Fixpoint last_char (s : string) : option ascii :=
  match s with
  | EmptyString => None
  | String a EmptyString => Some a
  | String _ s' => last_char s'
  end.

(** A pattern without wildcards. *)
Fixpoint literal (pat : string) : bool :=
  match pat with
  | EmptyString => true
  | String c pat' => negb (Ascii.eqb c "*") && negb (Ascii.eqb c "?") && literal pat'
  end.

End Names.

(** ** The world: files on disk and the trace of observable effects *)

Inductive entry : Type :=
| RegFile (data : bytes)
| Directory.

(** What [convert_to_webp] returns inside its tuple: the message is kept
    structured instead of formatted. *)
Inductive message : Type :=
| Converted (name : string) (savings : Q)
| FailedToConvert (name : string) (e : exn).

(** [Optional[Tuple[bool, str]]]. *)
Abbreviation outcome := (option (bool * message)).

Inductive log_msg : Type :=
| LogAnalyzeError (e : exn)
| LogProcessingError (p : Path) (e : exn)
| LogStarting (directory : Path)
| LogFound (total : Z)
| LogSkipped (i total : Z)
| LogResult (i total : Z) (m : message)
| LogComplete
| LogConvertedCount (n : Z)
| LogSkippedCount (n : Z)
| LogErrorCount (n : Z)
| LogFatal (e : exn).

Inductive event : Type :=
| EvSave (lossless : bool) (quality : Z)
| EvAnalyze (original_data webp_data : bytes)
| EvWrite (p : Path) (data : bytes)
| EvWriteTorn (p : Path) (written : bytes)
| EvRemove (p : Path)
| EvLog (m : log_msg).

Record World : Type := mkWorld {
  files : gmap Path entry;
  trace : list event
}.

(** The error of a system call on a path that has no entry.  The path is
    resolved component by component, [walked] being the part resolved so
    far: a component above the last that is a regular file gives
    [NotADirectoryError], and the first component that is missing gives
    [FileNotFoundError]. *)
Fixpoint resolve_error (fs : gmap Path entry) (walked rest : Path) : exn :=
  match rest with
  | [] => FileNotFoundError
  | c :: rest' =>
      match rest' with
      | [] => FileNotFoundError
      | _ :: _ =>
          match fs !! (walked ++ [c]) with
          | Some (RegFile _) => NotADirectoryError
          | Some Directory => resolve_error fs (walked ++ [c]) rest'
          | None => FileNotFoundError
          end
      end
  end.

Definition absent_error (fs : gmap Path entry) (p : Path) : exn :=
  resolve_error fs [] p.

(** ** The monad of effectful code *)

Definition M (A : Type) : Type := World → res A * World.

Global Instance M_ret : MRet M := λ A a w, (Ok a, w).
Global Instance M_bind : MBind M := λ A B f m w,
  match m w with
  | (Ok a, w') => f a w'
  | (Raise e, w') => (Raise e, w')
  end.

Definition lift {A : Type} (r : res A) : M A := λ w, (r, w).

Definition emit (ev : event) : M unit :=
  λ w, (Ok tt, mkWorld (files w) (trace w ++ [ev])).

(** [try: body  except Exception as e: handler(e)]. *)
Definition try_except {A : Type} (body : M A) (handler : exn → M A) : M A :=
  λ w, match body w with
       | (Ok a, w') => (Ok a, w')
       | (Raise e, w') => handler e w'
       end.

(** [for x in l: s = body(s, x)]. *)
Fixpoint for_each {A S : Type} (l : list A) (body : S → A → M S) (s : S) : M S :=
  match l with
  | [] => mret s
  | x :: l' => s' ← body s x; for_each l' body s'
  end.

(** ** The operating system *)

Inductive write_fault : Type :=
| WriteRefused (e : exn)
| WriteTorn (written : nat) (e : exn).

(** Faults the operating system may answer with, which may depend on the
    files and on what happened so far; the current directory, the start
    of the worker pool, and the recursive globbing primitive. *)
Class OS : Type := {
  os_read_fault : World → Path → option exn;
  os_write_fault : World → Path → bytes → option write_fault;
  os_remove_fault : World → Path → option exn;
  os_getcwd : res Path;
  os_pool_start : res unit;
  os_rglob : gmap Path entry → Path → string → res (list Path)
}.

(** ** Pillow *)

Abbreviation pixel := (byte * byte * byte)%type.

Class Codec (Img : Type) : Type := {
  pil_open : bytes → res Img;
  pil_mode : Img → string;
  pil_size : Img → Z * Z;
  pil_getchannel : Img → string → res Img;
  pil_convert : Img → string → res Img;
  pil_resize : Img → Z * Z → res Img;
  (** [getdata()] of an image in mode RGB *)
  pil_getdata : Img → list pixel;
  (** [img.save(buffer, 'WEBP', lossless=..., quality=...)] and
      [buffer.getvalue()] *)
  pil_save_webp : Img → bool → Z → res bytes
}.

Definition channel (b : byte) : Z := Z.of_N (Byte.to_N b).

(** [sum((a - b) ** 2 for a, b in zip(p1, p2))] *)
Definition pixel_diff (p1 p2 : pixel) : Z :=
  let '(r1, g1, b1) := p1 in
  let '(r2, g2, b2) := p2 in
  (channel r1 - channel r2) ^ 2 + (channel g1 - channel g2) ^ 2
  + (channel b1 - channel b2) ^ 2.

(** The state of the quality loop: [(best_size, best_quality, best_data)]. *)
Abbreviation best := (Z * Z * option bytes)%type.

(** The counters [(success_count, skip_count, error_count)]. *)
Abbreviation tally := (Z * Z * Z)%type.

(** [diff = 0] and then
    [for p1, p2 in zip(pixels1, pixels2): diff += sum(...)]. *)
Definition accumulate_diff (pixels1 pixels2 : list pixel) : Z :=
  fold_left (λ diff pp, diff + pixel_diff pp.1 pp.2) (zip pixels1 pixels2) 0.

Section Program.

Context {Img : Type} {codec : Codec Img} {os : OS}.

(** *** Primitive file operations *)

(** [with open(p, 'rb') as f: f.read()]; a path without entry raises the
    error of its resolution. *)
Definition open_read (p : Path) : M bytes :=
  λ w, match files w !! p with
       | None => (Raise (absent_error (files w) p), w)
       | Some Directory => (Raise IsADirectoryError, w)
       | Some (RegFile data) =>
           match os_read_fault w p with
           | Some e => (Raise e, w)
           | None => (Ok data, w)
           end
       end.

(** [Image.open(p)] *)
Definition image_open (p : Path) : M Img :=
  data ← open_read p; lift (pil_open data).

(** [with open(p, 'wb') as f: f.write(data)]: the file is created or
    truncated, and holds [data] once the block is left without error.
    The program writes next to a file it has just read, so the directory
    of [p] is one that resolves. *)
Definition open_write (p : Path) (data : bytes) : M unit :=
  λ w, match files w !! p with
       | Some Directory => (Raise IsADirectoryError, w)
       | _ =>
           match os_write_fault w p data with
           | Some (WriteRefused e) => (Raise e, w)
           | Some (WriteTorn n e) =>
               (Raise e,
                mkWorld (<[p := RegFile (take n data)]> (files w))
                        (trace w ++ [EvWriteTorn p (take n data)]))
           | None =>
               (Ok tt,
                mkWorld (<[p := RegFile data]> (files w))
                        (trace w ++ [EvWrite p data]))
           end
       end.

(** [os.remove(p)] *)
Definition os_remove (p : Path) : M unit :=
  λ w, match files w !! p with
       | None => (Raise (absent_error (files w) p), w)
       | Some Directory => (Raise IsADirectoryError, w)
       | Some (RegFile _) =>
           match os_remove_fault w p with
           | Some e => (Raise e, w)
           | None => (Ok tt, mkWorld (delete p (files w)) (trace w ++ [EvRemove p]))
           end
       end.

(** *** [analyze_image_quality] *)

(** The body of the [try] block. *)
Definition compare_images (original_data webp_data : bytes) : res Q :=
  img1 ← pil_open original_data;
  img2 ← pil_open webp_data;
  img1 ← pil_convert img1 "RGB";
  img2 ← pil_convert img2 "RGB";
  img2 ← (if decide (pil_size img1 ≠ pil_size img2)
          then pil_resize img2 (pil_size img1)
          else mret img2);
  let pixels1 := pil_getdata img1 in
  let pixels2 := pil_getdata img2 in
  let diff := accumulate_diff pixels1 pixels2 in
  let max_diff := len pixels1 * 3 * 255 ^ 2 in
  if max_diff =? 0 then Raise ZeroDivisionError
  else Ok (1 - inject_Z diff / inject_Z max_diff)%Q.

Definition analyze_image_quality (original_data webp_data : bytes) : M Q :=
  emit (EvAnalyze original_data webp_data);;
  try_except (lift (compare_images original_data webp_data))
             (λ e, emit (EvLog (LogAnalyzeError e));; mret 0%Q).

(** *** [convert_to_webp] *)

Definition quality_levels : list Z := [90; 85; 80].

Definition has_alpha_mode (img : Img) : bool :=
  bool_decide (pil_mode img ∈ ["RGBA"%string; "LA"%string]).

(** One iteration of [for quality in [90, 85, 80]]. *)
Definition search_step (original_data : bytes) (img : Img)
    (st : best) (quality : Z) : M best :=
  emit (EvSave false quality);;
  webp_data ← lift (pil_save_webp img false quality);
  if len webp_data <? st.1.1 then
    similarity ← analyze_image_quality original_data webp_data;
    if Qle_bool 0.95 similarity
    then mret (len webp_data, quality, Some webp_data)
    else mret st
  else mret st.

(** The alpha branch and the quality search: the chosen [webp_data], or
    [None] where the source returns [None] from inside the loop branch. *)
Definition encode_candidate (original_data : bytes) (img : Img) : M (option bytes) :=
  if has_alpha_mode img then
    _ ← lift (pil_getchannel img "A");
    emit (EvSave true 90);;
    webp_data ← lift (pil_save_webp img true 90);
    mret (Some webp_data)
  else
    img ← lift (pil_convert img "RGB");
    st ← for_each quality_levels (search_step original_data img)
                  (len original_data, 90, None);
    mret st.2.

Definition savings_percent (original_size webp_size : Z) : Q :=
  (inject_Z (original_size - webp_size) / inject_Z original_size * 100)%Q.

(** The body of the [try] block of [convert_to_webp]. *)
Definition convert_body (image_path : Path) : M outcome :=
  original_data ← open_read image_path;
  let original_size := len original_data in
  img ← image_open image_path;
  candidate ← encode_candidate original_data img;
  match candidate with
  | None => mret None
  | Some webp_data =>
      let webp_size := len webp_data in
      if original_size <=? webp_size then mret None
      else
        webp_path ← lift (Names.with_suffix image_path ".webp");
        open_write webp_path webp_data;;
        os_remove image_path;;
        mret (Some (true, Converted (Names.path_name image_path)
                                    (savings_percent original_size webp_size)))
  end.

Definition convert_to_webp (image_path : Path) : M outcome :=
  try_except (convert_body image_path)
    (λ e, emit (EvLog (LogProcessingError image_path e));;
          mret (Some (false, FailedToConvert (Names.path_name image_path) e))).

(** *** [process_directory] *)

Definition extensions : list string := [".jpg"; ".jpeg"; ".png"]%string.

(** [directory.rglob(pattern)], consumed to the end. *)
Definition rglob (directory : Path) (pattern : string) : M (list Path) :=
  λ w, (os_rglob (files w) directory pattern, w).

(** The loop that fills [image_files]. *)
Definition find_image_files (directory : Path) : M (list Path) :=
  for_each extensions
    (λ image_files ext,
       found ← rglob directory ("*" ++ ext)%string;
       mret (image_files ++ found))
    [].

(** [executor.map(f, l)]: the results in the order of [l]. *)
Fixpoint executor_map {A B : Type} (f : A → M B) (l : list A) : M (list B) :=
  match l with
  | [] => mret []
  | x :: l' => y ← f x; ys ← executor_map f l'; mret (y :: ys)
  end.

(** [enumerate(l, start)] *)
Fixpoint enumerate {A : Type} (l : list A) (start : Z) : list (Z * A) :=
  match l with
  | [] => []
  | x :: l' => (start, x) :: enumerate l' (start + 1)
  end.

(** The body of the loop over the results. *)
Definition tally_step (total_files : Z) (t : tally) (ir : Z * outcome) : M tally :=
  let '(success_count, skip_count, error_count) := t in
  let '(i, result) := ir in
  match result with
  | None =>
      emit (EvLog (LogSkipped i total_files));;
      mret (success_count, skip_count + 1, error_count)
  | Some (success, msg) =>
      let t' := if success : bool
                then (success_count + 1, skip_count, error_count)
                else (success_count, skip_count, error_count + 1) in
      emit (EvLog (LogResult i total_files msg));;
      mret t'
  end.

Definition process_directory (directory : Path) : M tally :=
  image_files ← find_image_files directory;
  let total_files := len image_files in
  emit (EvLog (LogFound total_files));;
  lift os_pool_start;;
  results ← executor_map convert_to_webp image_files;
  for_each (enumerate results 1) (tally_step total_files) (0, 0, 0).

(** The value of [find_image_files] on the files [fs]. *)
Definition image_files_of (fs : gmap Path entry) (directory : Path) : res (list Path) :=
  jpg ← os_rglob fs directory "*.jpg";
  jpeg ← os_rglob fs directory "*.jpeg";
  png ← os_rglob fs directory "*.png";
  mret (jpg ++ jpeg ++ png).

(** The results of the tasks of a batch, run one after another. *)
Inductive batch_run : list Path → World → list outcome → World → Prop :=
| batch_nil w :
    batch_run [] w [] w
| batch_cons p ps w r w1 rs w' :
    convert_to_webp p w = (Ok r, w1) →
    batch_run ps w1 rs w' →
    batch_run (p :: ps) w (r :: rs) w'.

(** *** [main]: the value is the exit status of the process. *)

Definition main : M Z :=
  try_except
    (directory ← lift os_getcwd;
     emit (EvLog (LogStarting directory));;
     t ← process_directory directory;
     emit (EvLog LogComplete);;
     emit (EvLog (LogConvertedCount t.1.1));;
     emit (EvLog (LogSkippedCount t.1.2));;
     emit (EvLog (LogErrorCount t.2));;
     mret 0)
    (λ e, emit (EvLog (LogFatal e));; mret 1).

End Program.

(** ** [pathlib]'s recursive globbing over the flat file map

    [Path.rglob(pattern)] yields every entry below the directory, of any
    kind, whose name matches the pattern; a path that is not a directory
    yields nothing.  Symbolic links are not modelled, and the order is the
    one of the map.  [pathlib_rglob] is the globbing of a tree in which
    every directory can be listed; [pathlib_rglob_unreadable] is the
    globbing of a tree with directories that cannot. *)

Definition strictly_under (directory p : Path) : Prop :=
  directory `prefix_of` p ∧ p ≠ directory.

Global Instance strictly_under_dec directory p : Decision (strictly_under directory p).
Proof. unfold strictly_under. apply _. Defined.

Definition pathlib_rglob (case_sensitive : bool) (fs : gmap Path entry)
    (directory : Path) (pattern : string) : res (list Path) :=
  match fs !! directory with
  | Some Directory =>
      Ok (filter (λ p, strictly_under directory p
                       ∧ Names.glob_match case_sensitive pattern (Names.path_name p) = true)
                 (map_to_list fs).*1)
  | _ => Ok []
  end.

(** The directories that are listed on the way from [directory] down to
    the entry [p]: [directory] itself and the ones between the two. *)
Definition walked_directories (directory p : Path) : list Path :=
  (λ k, take k p) <$> seq (length directory) (length p - length directory).

(** [pathlib] swallows the error of listing a directory ([scandir]
    raising [PermissionError]): a directory that cannot be listed yields
    nothing, and neither does what is below it. *)
Definition pathlib_rglob_unreadable (case_sensitive : bool) (unreadable : Path → bool)
    (fs : gmap Path entry) (directory : Path) (pattern : string) : res (list Path) :=
  match fs !! directory with
  | Some Directory =>
      Ok (filter (λ p, strictly_under directory p
                       ∧ Names.glob_match case_sensitive pattern (Names.path_name p) = true
                       ∧ forallb (λ d, negb (unreadable d))
                                 (walked_directories directory p) = true)
                 (map_to_list fs).*1)
  | _ => Ok []
  end.

(** The name test the three patterns amount to. *)
Definition is_image_name (case_sensitive : bool) (name : string) : bool :=
  existsb (λ ext, Names.glob_match case_sensitive ("*" ++ ext)%string name) extensions.

(** An operating system without faults whose globbing is [pathlib]'s. *)
Definition pathlib_os (case_sensitive : bool) (cwd : Path) : OS := {|
  os_read_fault := λ _ _, None;
  os_write_fault := λ _ _ _, None;
  os_remove_fault := λ _ _, None;
  os_getcwd := Ok cwd;
  os_pool_start := Ok tt;
  os_rglob := pathlib_rglob case_sensitive
|}.


(** ** Views of a trace *)

(** The encoder calls of a trace: [(lossless, quality)]. *)
Definition saves (t : list event) : list (bool * Z) :=
  omap (λ ev, match ev with EvSave l q => Some (l, q) | _ => None end) t.

(** The calls of the similarity estimator in a trace. *)
Definition analyses (t : list event) : list (bytes * bytes) :=
  omap (λ ev, match ev with EvAnalyze o c => Some (o, c) | _ => None end) t.

(** The events that change the disk. *)
Definition disk_event (ev : event) : bool :=
  match ev with
  | EvWrite _ _ | EvWriteTorn _ _ | EvRemove _ => true
  | _ => false
  end.

Definition disk_events (t : list event) : list event :=
  List.filter disk_event t.

Definition is_summary (ev : event) : bool :=
  match ev with
  | EvLog LogComplete | EvLog (LogConvertedCount _)
  | EvLog (LogSkippedCount _) | EvLog (LogErrorCount _) => true
  | _ => false
  end.

(** ** The score and the search as the specification words them *)

(** The value [analyze_image_quality] hands back. *)
Definition similarity_of {Img : Type} {codec : Codec Img}
    (original_data webp_data : bytes) : Q :=
  match compare_images original_data webp_data with
  | Ok s => s
  | Raise _ => 0%Q
  end.

Definition channels (p : pixel) : list Z :=
  [channel p.1.1; channel p.1.2; channel p.2].

Definition black : pixel := ("000"%byte, "000"%byte, "000"%byte).

(** The sum of squared differences over the pixels [0 .. n-1] and the
    three channels of each. *)
Definition squared_differences (original candidate : list pixel) : Z :=
  foldr Z.add 0
    (map (λ i, foldr Z.add 0
                 (map (λ c, (nth c (channels (nth i original black)) 0
                             - nth c (channels (nth i candidate black)) 0) ^ 2)
                      (seq 0 3)))
         (seq 0 (length original))).

(** [1 - sum / (pixel_count * 3 * 255^2)] over the grid of [original]. *)
Definition spec_similarity (original candidate : list pixel) : Q :=
  (1 - inject_Z (squared_differences original candidate)
       / inject_Z (len original * 3 * 255 ^ 2))%Q.

(** A level is accepted against the best size so far. *)
Definition accepts (best_size : Z) (webp_data : bytes) (similarity : Q) : bool :=
  (len webp_data <? best_size) && Qle_bool 0.95 similarity.

(** The loop of the search without its effects, for an encoder [enc] and
    a score [sim] given level by level. *)
Definition pure_step (enc : Z → bytes) (sim : Z → Q) (st : best) (quality : Z) : best :=
  if accepts st.1.1 (enc quality) (sim quality)
  then (len (enc quality), quality, Some (enc quality))
  else st.

(** ** The kinds of outcome and their counts *)

Definition is_converted (r : outcome) : bool :=
  match r with Some (true, _) => true | _ => false end.

Definition is_skipped (r : outcome) : bool :=
  match r with None => true | _ => false end.

Definition is_failed (r : outcome) : bool :=
  match r with Some (false, _) => true | _ => false end.

Definition count (kind : outcome → bool) (results : list outcome) : Z :=
  len (List.filter kind results).

(** The converted results of a run that are results for the path [q]. *)
Definition converted_for (q : Path) (image_files : list Path)
    (results : list outcome) : Z :=
  len (List.filter (λ pr, bool_decide (pr.1 = q) && is_converted pr.2)
                   (zip image_files results)).

(** ** Relations on runs *)

(** [w'] is [w] with more trace and no disk event. *)
Definition quiet (w w' : World) : Prop :=
  files w' = files w ∧ ∃ t, trace w' = trace w ++ t ∧ disk_events t = [].

(** The results of [open(p, 'wb')] and [f.write(data)]. *)
Inductive write_result (p : Path) (data : bytes) (w : World) : res unit * World → Prop :=
| write_refused e :
    write_result p data w (Raise e, w)
| write_torn e n :
    write_result p data w
      (Raise e, mkWorld (<[p := RegFile (take n data)]> (files w))
                        (trace w ++ [EvWriteTorn p (take n data)]))
| write_done :
    write_result p data w
      (Ok tt, mkWorld (<[p := RegFile data]> (files w)) (trace w ++ [EvWrite p data])).

(** The results of [os.remove(p)]. *)
Inductive remove_result (p : Path) (w : World) : res unit * World → Prop :=
| remove_refused e :
    remove_result p w (Raise e, w)
| remove_done data :
    files w !! p = Some (RegFile data) →
    remove_result p w
      (Ok tt, mkWorld (delete p (files w)) (trace w ++ [EvRemove p])).

(** The shapes of a run of [convert_body]

    Either nothing on disk changed (the run skipped or raised before the
    write), or the write was torn, or the replacement was written and the
    removal refused, or the replacement was written and the original
    removed. *)
Inductive convert_run (p : Path) (w : World) : res outcome * World → Prop :=
| run_skipped w1 data :
    quiet w w1 → files w !! p = Some (RegFile data) →
    convert_run p w (Ok None, w1)
| run_raised_early w1 e :
    quiet w w1 →
    convert_run p w (Raise e, w1)
| run_torn w1 e q original_data webp_data n :
    quiet w w1 → Names.with_suffix p ".webp" = Ok q →
    files w !! p = Some (RegFile original_data) →
    len webp_data < len original_data →
    convert_run p w
      (Raise e, mkWorld (<[q := RegFile (take n webp_data)]> (files w1))
                        (trace w1 ++ [EvWriteTorn q (take n webp_data)]))
| run_remove_refused w1 e q original_data webp_data :
    quiet w w1 → Names.with_suffix p ".webp" = Ok q →
    files w !! p = Some (RegFile original_data) →
    len webp_data < len original_data →
    convert_run p w
      (Raise e, mkWorld (<[q := RegFile webp_data]> (files w1))
                        (trace w1 ++ [EvWrite q webp_data]))
| run_converted w1 q original_data webp_data :
    quiet w w1 → Names.with_suffix p ".webp" = Ok q →
    files w !! p = Some (RegFile original_data) →
    len webp_data < len original_data →
    convert_run p w
      (Ok (Some (true, Converted (Names.path_name p)
                         (savings_percent (len original_data) (len webp_data)))),
       mkWorld (delete p (<[q := RegFile webp_data]> (files w1)))
               ((trace w1 ++ [EvWrite q webp_data]) ++ [EvRemove p])).


(** ** A small codec and file tree to run the program on

    A file is a mode byte ([A] for RGBA, [L] for LA, anything else RGB)
    followed by the pixels, three bytes each; the image is one row of
    pixels; the WebP encoder is a table. *)

Record toy_image : Type := mkToy {
  toy_mode : string;
  toy_pixels : list pixel
}.

Fixpoint toy_triples (payload : bytes) : list pixel :=
  match payload with
  | r :: g :: b :: rest => (r, g, b) :: toy_triples rest
  | _ => []
  end.

Definition toy_open (data : bytes) : res toy_image :=
  match data with
  | [] => Raise UnidentifiedImageError
  | m :: payload =>
      let mode := if Byte.eqb m "A"%byte then "RGBA"%string
                  else if Byte.eqb m "L"%byte then "LA"%string
                  else "RGB"%string in
      Ok (mkToy mode (toy_triples payload))
  end.

Definition toy_codec (enc : bool → Z → res bytes) : Codec toy_image := {|
  pil_open := toy_open;
  pil_mode := toy_mode;
  pil_size := λ img, (len (toy_pixels img), 1);
  pil_getchannel := λ img _, Ok img;
  pil_convert := λ img mode, Ok (mkToy mode (toy_pixels img));
  pil_resize := λ img size, Ok (mkToy (toy_mode img)
                                      (resize (Z.to_nat (size.1 * size.2)) black (toy_pixels img)));
  pil_getdata := toy_pixels;
  pil_save_webp := λ _ lossless quality, enc lossless quality
|}.

(** [n] copies of a byte after a mode byte. *)
Definition toy_file (mode : byte) (n : nat) (b : byte) : bytes :=
  mode :: replicate n b.

(** A run to look at: a directory [pics] with the opaque image [a.jpg],
    three pixels in ten bytes, and a sub-directory named [album.png]; the
    encoder gives seven, six and four bytes at 90, 85 and 80, and twelve
    pixels in lossless mode. *)

Definition demo_original : bytes := toy_file "R" 9 x10.

Definition demo_enc (quality : Z) : bytes :=
  if quality =? 90 then toy_file "R" 6 x10
  else if quality =? 85 then toy_file "R" 5 x10
  else toy_file "R" 3 x10.

Definition demo_codec : Codec toy_image :=
  toy_codec (λ lossless quality,
               if lossless : bool then Ok (toy_file "A" 12 x10)
               else Ok (demo_enc quality)).

Definition demo_files : gmap Path entry :=
  <[ ["pics"] := Directory ]>
    (<[ ["pics"; "a.jpg"] := RegFile demo_original ]>
       (<[ ["pics"; "album.png"] := Directory ]> ∅)).

Definition demo_world : World := mkWorld demo_files [].

(** The same directory with a transparent image in place of [a.jpg]. *)
Definition alpha_original : bytes := toy_file "A" 9 x10.

Definition alpha_world : World :=
  mkWorld (<[ ["pics"] := Directory ]>
             (<[ ["pics"; "logo.png"] := RegFile alpha_original ]> ∅)) [].


(** [pics] with a sub-directory [album.jpg], enumerated first, and an
    image [b.png]. *)
Definition album_first_world : World :=
  mkWorld (<[ ["pics"] := Directory ]>
             (<[ ["pics"; "album.jpg"] := Directory ]>
                (<[ ["pics"; "b.png"] := RegFile demo_original ]> ∅))) [].


(** An operating system that refuses every removal, and one whose
    writes stop after two bytes. *)
Definition undeletable_os : OS := {|
  os_read_fault := λ _ _, None;
  os_write_fault := λ _ _ _, None;
  os_remove_fault := λ _ _, Some PermissionError;
  os_getcwd := Ok ["pics"];
  os_pool_start := Ok tt;
  os_rglob := pathlib_rglob true
|}.

Definition disk_full_os : OS := {|
  os_read_fault := λ _ _, None;
  os_write_fault := λ _ _ _, Some (WriteTorn 2 OSError);
  os_remove_fault := λ _ _, None;
  os_getcwd := Ok ["pics"];
  os_pool_start := Ok tt;
  os_rglob := pathlib_rglob true
|}.

(** Four black pixels, and four pixels at the distance from them that
    gives the score 0.95, and one step further. *)
Definition boundary_original : bytes := toy_file "R" 14 x00.

Definition boundary_candidate : bytes :=
  "R"%byte :: [xc5; x0e; x03; x01] ++ replicate 8 x00.

Definition below_candidate : bytes :=
  "R"%byte :: [xc6; x0e; x03; x01] ++ replicate 8 x00.

(** * Properties *)

(** ** Names and patterns *)

Module NamesFacts.
Import Names.
Open Scope string_scope.

Lemma fnmatch_literal pat s :
  literal pat = true → fnmatch pat s = String.eqb s pat.
Proof.
  revert s. induction pat as [|c pat IH]; intros s Hlit; [done|].
  simpl in Hlit. apply andb_prop in Hlit as [Hc Hlit].
  apply andb_prop in Hc as [Hstar Hq].
  simpl. destruct (Ascii.eqb c "*"); [done|].
  destruct (Ascii.eqb c "?"); [done|].
  destruct s as [|a s]; [done|]. simpl. by rewrite IH.
Qed.

Lemma fnmatch_star ext s :
  literal ext = true → fnmatch (String "*" ext) s = ends_with ext s.
Proof.
  intros Hlit. induction s as [|a s IH].
  - simpl. by rewrite fnmatch_literal.
  - change (fnmatch (String "*" ext) (String a s))
      with (fnmatch ext (String a s) || fnmatch (String "*" ext) s).
    rewrite IH, fnmatch_literal by done. done.
Qed.

Lemma ends_with_app suf s :
  ends_with suf s = true ↔ ∃ stem, s = stem ++ suf.
Proof.
  split.
  - induction s as [|a s IH]; cbn [ends_with]; intros H.
    + rewrite orb_false_r in H. apply String.eqb_eq in H as <-. by exists "".
    + apply orb_prop in H as [H|H].
      * apply String.eqb_eq in H as <-. by exists "".
      * destruct (IH H) as [stem ->]. by exists (String a stem).
  - intros [stem ->]. induction stem as [|a stem IH].
    + change (ends_with suf suf = true).
      destruct suf; cbn [ends_with]; [done|]. by rewrite String.eqb_refl.
    + change (ends_with suf (String a (stem ++ suf)) = true).
      cbn [ends_with]. rewrite IH. apply orb_true_r.
Qed.

Lemma last_char_app s suf :
  suf ≠ "" → last_char (s ++ suf) = last_char suf.
Proof.
  intros Hsuf. induction s as [|a s IH]; [done|].
  simpl. rewrite IH. destruct (s ++ suf) eqn:E; [|done].
  destruct s; simpl in E; [done|discriminate].
Qed.

Lemma last_char_lower s :
  last_char (lower s) = lower_ascii <$> last_char s.
Proof.
  induction s as [|a s IH]; [done|].
  simpl. rewrite IH. by destruct s.
Qed.

Lemma lower_app s t : lower (s ++ t) = lower s ++ lower t.
Proof. induction s as [|a s IH]; simpl; [done|]. by rewrite IH. Qed.

Lemma last_char_normcase cs stem suf :
  suf ≠ "" → lower suf = suf →
  last_char (normcase cs (stem ++ suf)) = last_char suf.
Proof.
  intros Hne Hlow. destruct cs; simpl.
  - by apply last_char_app.
  - rewrite lower_app, Hlow. by apply last_char_app.
Qed.

(** On the three patterns of the program, matching is "the folded name
    ends with the extension". *)
Lemma glob_match_extension cs ext name :
  ext ∈ extensions →
  glob_match cs ("*" ++ ext) name = ends_with ext (normcase cs name).
Proof.
  intros Hext. unfold glob_match.
  assert (normcase cs ("*" ++ ext) = String "*" ext ∧ literal ext = true) as [-> Hlit].
  { unfold extensions in Hext.
    repeat (apply elem_of_cons in Hext as [->|Hext]; [by destruct cs|]).
    by apply elem_of_nil in Hext. }
  by apply fnmatch_star.
Qed.

Lemma is_image_name_spec cs name :
  is_image_name cs name = true
  ↔ ∃ ext stem, ext ∈ extensions ∧ normcase cs name = stem ++ ext.
Proof.
  unfold is_image_name. rewrite existsb_exists. split.
  - intros (ext & Hin & Hm). apply list_elem_of_In in Hin.
    rewrite glob_match_extension in Hm by done.
    apply ends_with_app in Hm as [stem Hm]. eauto.
  - intros (ext & stem & Hin & Hm). exists ext. split.
    + by apply list_elem_of_In.
    + rewrite glob_match_extension by done. apply ends_with_app. eauto.
Qed.

(** The name of an image file ends in the letter g once case-folded. *)
Lemma is_image_name_last cs name :
  is_image_name cs name = true → last_char (normcase cs name) = Some "g"%char.
Proof.
  intros (ext & stem & Hin & ->)%is_image_name_spec.
  unfold extensions in Hin.
  repeat (apply elem_of_cons in Hin as [->|Hin]; [by rewrite last_char_app|]).
  by apply elem_of_nil in Hin.
Qed.

Lemma webp_not_image_name cs stem :
  is_image_name cs (stem ++ ".webp") = false.
Proof.
  destruct (is_image_name cs (stem ++ ".webp")) eqn:E; [|done].
  apply is_image_name_last in E.
  rewrite last_char_normcase in E by done. discriminate.
Qed.

Lemma path_name_snoc (p : Path) name : path_name (p ++ [name])%list = name.
Proof. unfold path_name. apply last_last. Qed.

(** [with_suffix] succeeds on a named path, keeps the parent and gives a
    name that ends with the new suffix. *)
Lemma with_suffix_name p new_suffix q :
  with_suffix p new_suffix = Ok q →
  path_name p ≠ "" ∧ ∃ stem, q = (removelast p ++ [(stem ++ new_suffix)%string])%list.
Proof.
  unfold with_suffix. destruct (String.eqb_spec (path_name p) ""); [done|].
  intros [= <-]. split; [done|]. unfold replace_suffix.
  destruct (String.eqb (suffix (path_name p)) ""); eauto.
Qed.



Lemma with_suffix_length p new_suffix q :
  with_suffix p new_suffix = Ok q → length q = length p.
Proof.
  intros (Hname & stem & ->)%with_suffix_name.
  destruct p as [|c p] using rev_ind; [done|].
  by rewrite removelast_last, !length_app.
Qed.

(** The replacement of an image file is another path, and its name is
    not the name of an image file. *)
Lemma with_suffix_webp cs p q :
  with_suffix p ".webp" = Ok q →
  is_image_name cs (path_name q) = false
  ∧ (is_image_name cs (path_name p) = true → q ≠ p).
Proof.
  intros (_ & stem & ->)%with_suffix_name.
  rewrite path_name_snoc. split; [apply webp_not_image_name|].
  intros Himg Heq. rewrite <- Heq, path_name_snoc, webp_not_image_name in Himg.
  discriminate.
Qed.

End NamesFacts.

(** ** The three patterns *)

(** Two endings of one name: one of them is an ending of the other. *)
Lemma ends_with_comparable (a b s : string) :
  Names.ends_with a s = true → Names.ends_with b s = true →
  Names.ends_with a b = true ∨ Names.ends_with b a = true.
Proof.
  induction s as [|c s IH]; cbn [Names.ends_with]; intros Ha Hb.
  - rewrite orb_false_r in Ha, Hb.
    apply String.eqb_eq in Ha as <-. apply String.eqb_eq in Hb as <-. by left.
  - apply orb_prop in Ha as [Ha|Ha].
    { apply String.eqb_eq in Ha as <-. right.
      cbn [Names.ends_with]. exact Hb. }
    apply orb_prop in Hb as [Hb|Hb].
    { apply String.eqb_eq in Hb as <-. left.
      cbn [Names.ends_with]. by rewrite Ha, orb_true_r. }
    by apply IH.
Qed.

(** A name matches one of the three patterns at most. *)
Lemma extensions_exclusive (cs : bool) (ext1 ext2 name : string) :
  ext1 ∈ extensions → ext2 ∈ extensions →
  Names.glob_match cs ("*" ++ ext1)%string name = true →
  Names.glob_match cs ("*" ++ ext2)%string name = true →
  ext1 = ext2.
Proof.
  intros H1 H2. rewrite !NamesFacts.glob_match_extension by done.
  intros Ha Hb. destruct (ends_with_comparable _ _ _ Ha Hb) as [H|H];
    unfold extensions in H1, H2;
    repeat (apply elem_of_cons in H1 as [->|H1]);
    try (by apply elem_of_nil in H1);
    repeat (apply elem_of_cons in H2 as [->|H2]);
    try (by apply elem_of_nil in H2);
    try done; vm_compute in H; discriminate.
Qed.

Lemma pathlib_rglob_NoDup (cs : bool) (fs : gmap Path entry) (directory : Path)
    (pattern : string) (l : list Path) :
  pathlib_rglob cs fs directory pattern = Ok l → NoDup l.
Proof.
  unfold pathlib_rglob.
  destruct (fs !! directory) as [[?|]|]; intros [= <-]; try constructor.
  apply NoDup_filter, NoDup_fst_map_to_list.
Qed.

(** ** The pixel comparison *)

Lemma channel_range b : 0 ≤ channel b ≤ 255.
Proof.
  unfold channel. pose proof (Byte.to_N_bounded b). lia.
Qed.

Lemma square_diff_range a b :
  0 ≤ a ≤ 255 → 0 ≤ b ≤ 255 → 0 ≤ (a - b) ^ 2 ≤ 255 ^ 2.
Proof. intros Ha Hb. nia. Qed.

Lemma pixel_diff_range p1 p2 : 0 ≤ pixel_diff p1 p2 ≤ 3 * 255 ^ 2.
Proof.
  destruct p1 as [[r1 g1] b1], p2 as [[r2 g2] b2]. unfold pixel_diff.
  pose proof (square_diff_range _ _ (channel_range r1) (channel_range r2)).
  pose proof (square_diff_range _ _ (channel_range g1) (channel_range g2)).
  pose proof (square_diff_range _ _ (channel_range b1) (channel_range b2)).
  lia.
Qed.

(** The loop adds the per-pixel sums to whatever it started from. *)
Lemma fold_diff_acc (l : list (pixel * pixel)) (acc : Z) :
  fold_left (λ diff pp, diff + pixel_diff pp.1 pp.2) l acc
  = acc + foldr Z.add 0 (map (λ pp, pixel_diff pp.1 pp.2) l).
Proof.
  revert acc. induction l as [|pp l IH]; intros acc; simpl; [lia|].
  rewrite IH. lia.
Qed.

Lemma sum_pixel_diff_range (l : list (pixel * pixel)) :
  0 ≤ foldr Z.add 0 (map (λ pp, pixel_diff pp.1 pp.2) l) ≤ len l * (3 * 255 ^ 2).
Proof.
  unfold len. induction l as [|pp l IH]; simpl length; simpl foldr; [lia|].
  pose proof (pixel_diff_range pp.1 pp.2). lia.
Qed.

Lemma accumulate_diff_range pixels1 pixels2 :
  0 ≤ accumulate_diff pixels1 pixels2 ≤ len pixels1 * 3 * 255 ^ 2.
Proof.
  unfold accumulate_diff. rewrite fold_diff_acc.
  pose proof (sum_pixel_diff_range (zip pixels1 pixels2)) as H.
  assert (len (zip pixels1 pixels2) ≤ len pixels1).
  { unfold len. rewrite length_zip. lia. }
  nia.
Qed.

(** Index by index over the grid of the first list, for lists of one
    length. *)
Lemma sum_zip_indexed {A : Type} (F : A → A → Z) (d : A) (l1 l2 : list A) :
  length l1 = length l2 →
  foldr Z.add 0 (map (λ pp, F pp.1 pp.2) (zip l1 l2))
  = foldr Z.add 0 (map (λ i, F (nth i l1 d) (nth i l2 d)) (seq 0 (length l1))).
Proof.
  revert l2. induction l1 as [|a l1 IH]; intros [|b l2] Hlen; try done.
  simpl in Hlen. injection Hlen as Hlen.
  simpl. rewrite (IH l2 Hlen). f_equal.
  rewrite <- seq_shift, map_map. done.
Qed.

Lemma pixel_diff_channels p1 p2 :
  pixel_diff p1 p2
  = foldr Z.add 0
      (map (λ c, (nth c (channels p1) 0 - nth c (channels p2) 0) ^ 2) (seq 0 3)).
Proof.
  destruct p1 as [[r1 g1] b1], p2 as [[r2 g2] b2].
  unfold pixel_diff, channels. simpl. lia.
Qed.

Lemma accumulate_diff_spec pixels1 pixels2 :
  length pixels2 = length pixels1 →
  accumulate_diff pixels1 pixels2 = squared_differences pixels1 pixels2.
Proof.
  intros Hlen. unfold accumulate_diff, squared_differences.
  rewrite fold_diff_acc, Z.add_0_l.
  rewrite (sum_zip_indexed pixel_diff black) by done.
  f_equal. apply map_ext. intros i. apply pixel_diff_channels.
Qed.

Lemma score_range (diff max_diff : Z) :
  0 ≤ diff ≤ max_diff → max_diff ≠ 0 →
  (0 <= 1 - inject_Z diff / inject_Z max_diff <= 1)%Q.
Proof.
  intros Hd Hm.
  assert (0 < inject_Z max_diff)%Q as Hpos.
  { change 0%Q with (inject_Z 0). rewrite <- Zlt_Qlt. lia. }
  assert (inject_Z diff / inject_Z max_diff <= 1)%Q.
  { apply Qle_shift_div_r; [done|]. rewrite Qmult_1_l, <- Zle_Qle. lia. }
  assert (0 <= inject_Z diff / inject_Z max_diff)%Q.
  { apply Qle_shift_div_l; [done|]. rewrite Qmult_0_l.
    change 0%Q with (inject_Z 0). rewrite <- Zle_Qle. lia. }
  split; lra.
Qed.

(** ** The error of a missing path *)

Lemma resolve_error_cases (fs : gmap Path entry) (walked rest : Path) :
  resolve_error fs walked rest = FileNotFoundError
  ∨ resolve_error fs walked rest = NotADirectoryError.
Proof.
  revert walked. induction rest as [|c rest IH]; intros walked; simpl; [by left|].
  destruct rest as [|c' rest]; [by left|].
  destruct (fs !! (walked ++ [c])) as [[data|]|]; [by right|apply IH|by left].
Qed.

(** [NotADirectoryError] is the error exactly when the walk reaches a
    regular file, through directories, before the last component. *)
Lemma resolve_error_not_a_directory (fs : gmap Path entry) (walked rest : Path) :
  resolve_error fs walked rest = NotADirectoryError
  ↔ ∃ (k : nat) data,
      (0 < k < length rest)%nat
      ∧ fs !! (walked ++ take k rest) = Some (RegFile data)
      ∧ ∀ j : nat, (0 < j < k)%nat → fs !! (walked ++ take j rest) = Some Directory.
Proof.
  revert walked. induction rest as [|c rest IH]; intros walked.
  { simpl. split; [done|]. intros (k & data & Hk & _). simpl in Hk. lia. }
  destruct rest as [|c' rest].
  { simpl. split; [done|]. intros (k & data & Hk & _). simpl in Hk. lia. }
  change (resolve_error fs walked (c :: c' :: rest))
    with (match fs !! (walked ++ [c]) with
          | Some (RegFile _) => NotADirectoryError
          | Some Directory => resolve_error fs (walked ++ [c]) (c' :: rest)
          | None => FileNotFoundError
          end).
  destruct (fs !! (walked ++ [c])) as [[data|]|] eqn:Hc.
  - split; [intros _|done]. exists 1%nat, data. simpl. split; [lia|].
    split; [done|]. intros j Hj. lia.
  - rewrite IH. split.
    + intros (k & data & Hk & Hfile & Hdirs). exists (S k), data.
      split; [simpl in *; lia|]. split.
      * change (take (S k) (c :: c' :: rest)) with (c :: take k (c' :: rest)).
        by rewrite cons_middle, app_assoc.
      * intros [|j] Hj; [lia|].
        change (take (S j) (c :: c' :: rest)) with (c :: take j (c' :: rest)).
        rewrite cons_middle, app_assoc. destruct j as [|j].
        { simpl. by rewrite app_nil_r. }
        apply Hdirs. lia.
    + intros (k & data & Hk & Hfile & Hdirs).
      destruct k as [|[|k]]; [lia| |].
      { simpl in Hfile. congruence. }
      exists (S k), data. split; [simpl in *; lia|]. split.
      * change (take (S (S k)) (c :: c' :: rest))
          with (c :: take (S k) (c' :: rest)) in Hfile.
        by rewrite cons_middle, app_assoc in Hfile.
      * intros j Hj. specialize (Hdirs (S j)).
        change (take (S j) (c :: c' :: rest)) with (c :: take j (c' :: rest)) in Hdirs.
        rewrite cons_middle, app_assoc in Hdirs. apply Hdirs. lia.
  - split; [done|]. intros (k & data & Hk & Hfile & Hdirs).
    destruct k as [|[|k]]; [lia| |].
    + simpl in Hfile. congruence.
    + specialize (Hdirs 1%nat). simpl in Hdirs. rewrite Hc in Hdirs.
      discriminate Hdirs. lia.
Qed.

Lemma absent_error_cases (fs : gmap Path entry) (p : Path) :
  absent_error fs p = FileNotFoundError ∨ absent_error fs p = NotADirectoryError.
Proof. apply resolve_error_cases. Qed.

Lemma absent_error_not_a_directory (fs : gmap Path entry) (p : Path) :
  absent_error fs p = NotADirectoryError
  ↔ ∃ (k : nat) data,
      (0 < k < length p)%nat
      ∧ fs !! take k p = Some (RegFile data)
      ∧ ∀ j : nat, (0 < j < k)%nat → fs !! take j p = Some Directory.
Proof. apply (resolve_error_not_a_directory fs [] p). Qed.

(** ** Running monadic code *)

Lemma bind_ok {A B : Type} (m : M A) (f : A → M B) w a w' :
  m w = (Ok a, w') → (m ≫= f) w = f a w'.
Proof. intros H. unfold mbind, M_bind. by rewrite H. Qed.

Lemma bind_raise {A B : Type} (m : M A) (f : A → M B) w e w' :
  m w = (Raise e, w') → (m ≫= f) w = (Raise e, w').
Proof. intros H. unfold mbind, M_bind. by rewrite H. Qed.

Lemma bind_lift {A B : Type} (r : res A) (f : A → M B) w :
  (lift r ≫= f) w = match r with Ok a => f a w | Raise e => (Raise e, w) end.
Proof. unfold mbind, M_bind, lift. by destruct r. Qed.

Lemma bind_emit {B : Type} ev (f : unit → M B) w :
  (emit ev ≫= f) w = f tt (mkWorld (files w) (trace w ++ [ev])).
Proof. done. Qed.

Lemma saves_app t1 t2 : saves (t1 ++ t2) = saves t1 ++ saves t2.
Proof. unfold saves. apply omap_app. Qed.

Lemma analyses_app t1 t2 : analyses (t1 ++ t2) = analyses t1 ++ analyses t2.
Proof. unfold analyses. apply omap_app. Qed.

Lemma no_disk_event_in t ev :
  disk_events t = [] → ev ∈ t → disk_event ev = false.
Proof.
  unfold disk_events. intros Hd Hin.
  destruct (disk_event ev) eqn:E; [|done].
  assert (In ev (List.filter disk_event t)) as HIn.
  { apply filter_In. split; [by apply list_elem_of_In|done]. }
  rewrite Hd in HIn. destruct HIn.
Qed.

Lemma disk_events_app t1 t2 :
  disk_events (t1 ++ t2) = disk_events t1 ++ disk_events t2.
Proof. unfold disk_events. apply List.filter_app. Qed.

Section ProgramFacts.

Context {Img : Type} {codec : Codec Img} {os : OS}.

(** *** The similarity estimator *)

Lemma compare_images_range original_data webp_data q :
  compare_images original_data webp_data = Ok q → (0 <= q <= 1)%Q.
Proof.
  unfold compare_images.
  destruct (pil_open original_data) as [img1|]; [simpl|done].
  destruct (pil_open webp_data) as [img2|]; [simpl|done].
  destruct (pil_convert img1 "RGB") as [rgb1|]; [simpl|done].
  destruct (pil_convert img2 "RGB") as [rgb2|]; [simpl|done].
  destruct (if decide (pil_size rgb1 ≠ pil_size rgb2)
            then pil_resize rgb2 (pil_size rgb1) else mret rgb2) as [cand|];
    [simpl|done].
  destruct (Z.eqb_spec (len (pil_getdata rgb1) * 3 * 255 ^ 2) 0) as [|Hmax]; [done|].
  intros [= <-]. apply score_range; [|done].
  apply accumulate_diff_range.
Qed.

Lemma similarity_of_range original_data webp_data :
  (0 <= similarity_of original_data webp_data <= 1)%Q.
Proof.
  unfold similarity_of.
  destruct (compare_images original_data webp_data) as [q|] eqn:E.
  - by apply compare_images_range in E.
  - split; discriminate.
Qed.

(** What a call of the estimator does to the world: one [EvAnalyze], a
    log line when the comparison raised, and the files as they were. *)
Lemma analyze_run original_data webp_data w :
  ∃ t, analyze_image_quality original_data webp_data w
       = (Ok (similarity_of original_data webp_data),
          mkWorld (files w) (trace w ++ EvAnalyze original_data webp_data :: t))
       ∧ saves t = [] ∧ analyses t = [] ∧ disk_events t = [].
Proof.
  unfold analyze_image_quality, similarity_of.
  rewrite bind_emit. unfold try_except, lift.
  destruct (compare_images original_data webp_data) as [q|e].
  - by exists [].
  - exists [EvLog (LogAnalyzeError e)]. rewrite bind_emit. simpl.
    by rewrite <- app_assoc.
Qed.

(** *** Effects that leave the disk alone *)

Lemma quiet_refl w : quiet w w.
Proof. split; [done|]. exists []. by rewrite app_nil_r. Qed.

Lemma quiet_trans w1 w2 w3 : quiet w1 w2 → quiet w2 w3 → quiet w1 w3.
Proof.
  intros [Hf1 (t1 & Ht1 & Hd1)] [Hf2 (t2 & Ht2 & Hd2)]. split; [congruence|].
  exists (t1 ++ t2). rewrite Ht2, Ht1, <- app_assoc. split; [done|].
  by rewrite disk_events_app, Hd1, Hd2.
Qed.

Lemma quiet_emit w ev :
  disk_event ev = false → quiet w (mkWorld (files w) (trace w ++ [ev])).
Proof.
  intros Hev. split; [done|]. exists [ev]. split; [done|].
  unfold disk_events. simpl. by rewrite Hev.
Qed.

Lemma analyze_quiet original_data webp_data w :
  quiet w (analyze_image_quality original_data webp_data w).2.
Proof.
  destruct (analyze_run original_data webp_data w) as (t & -> & _ & _ & Hd).
  split; [done|]. by exists (EvAnalyze original_data webp_data :: t).
Qed.

(** *** The quality search *)

(** One level: the encoder is called once, the estimator at most once,
    and the new state is the one of [pure_step]. *)
Lemma search_step_run original_data img st quality webp_data w :
  pil_save_webp img false quality = Ok webp_data →
  ∃ t, search_step original_data img st quality w
       = (Ok (if accepts st.1.1 webp_data (similarity_of original_data webp_data)
              then (len webp_data, quality, Some webp_data) else st),
          mkWorld (files w) (trace w ++ EvSave false quality :: t))
       ∧ saves t = [] ∧ disk_events t = [].
Proof.
  intros Hsave. unfold search_step, accepts.
  rewrite bind_emit, bind_lift, Hsave.
  destruct (len webp_data <? st.1.1) eqn:Hlt; simpl.
  - set (w1 := mkWorld (files w) (trace w ++ [EvSave false quality])).
    destruct (analyze_run original_data webp_data w1) as (t & Hrun & Hs & _ & Hd).
    rewrite (bind_ok _ _ _ _ _ Hrun).
    exists (EvAnalyze original_data webp_data :: t). simpl.
    rewrite <- app_assoc.
    by destruct (Qle_bool 0.95 (similarity_of original_data webp_data)).
  - exists []. done.
Qed.

Lemma search_step_quiet original_data img st quality w :
  quiet w (search_step original_data img st quality w).2.
Proof.
  destruct (pil_save_webp img false quality) as [webp_data|e] eqn:Hsave.
  - destruct (search_step_run original_data img st quality webp_data w Hsave)
      as (t & -> & _ & Hd).
    split; [done|]. by exists (EvSave false quality :: t).
  - unfold search_step. rewrite bind_emit, bind_lift, Hsave.
    by apply quiet_emit.
Qed.

Lemma for_each_quiet {A S : Type} (body : S → A → M S) (l : list A) :
  (∀ s x w, quiet w (body s x w).2) → ∀ s w, quiet w (for_each l body s w).2.
Proof.
  intros Hbody. induction l as [|x l IH]; intros s w; simpl.
  - apply quiet_refl.
  - unfold mbind, M_bind. specialize (Hbody s x w).
    destruct (body s x w) as [[s'|e] w1]; simpl in *; [|done].
    eapply quiet_trans; [done|apply IH].
Qed.

(** The loop over any list of levels the encoder succeeds on. *)
Lemma search_run original_data img (enc : Z → bytes) levels :
  (∀ q, q ∈ levels → pil_save_webp img false q = Ok (enc q)) →
  ∀ st w, ∃ t,
    for_each levels (search_step original_data img) st w
    = (Ok (fold_left (pure_step enc (λ q, similarity_of original_data (enc q))) levels st),
       mkWorld (files w) (trace w ++ t))
    ∧ saves t = map (λ q, (false, q)) levels ∧ disk_events t = [].
Proof.
  induction levels as [|q levels IH]; intros Hsave st w.
  - exists []. simpl. rewrite app_nil_r. by destruct w.
  - destruct (search_step_run original_data img st q (enc q) w) as (t1 & Hrun & Hs1 & Hd1).
    { apply Hsave. left. }
    simpl for_each. rewrite (bind_ok _ _ _ _ _ Hrun).
    edestruct IH as (t2 & -> & Hs2 & Hd2).
    { intros q' Hq'. apply Hsave. by right. }
    exists (EvSave false q :: t1 ++ t2). simpl files. simpl trace.
    rewrite <- app_assoc. split; [done|]. split.
    + change (EvSave false q :: t1 ++ t2) with ([EvSave false q] ++ t1 ++ t2).
      rewrite !saves_app, Hs1, Hs2. done.
    + change (EvSave false q :: t1 ++ t2) with ([EvSave false q] ++ t1 ++ t2).
      rewrite !disk_events_app, Hd1, Hd2. done.
Qed.

Lemma encode_candidate_quiet original_data img w :
  quiet w (encode_candidate original_data img w).2.
Proof.
  unfold encode_candidate. destruct (has_alpha_mode img).
  - rewrite bind_lift. destruct (pil_getchannel img "A"); [|apply quiet_refl].
    rewrite bind_emit, bind_lift.
    destruct (pil_save_webp img true 90); by apply quiet_emit.
  - rewrite bind_lift. destruct (pil_convert img "RGB") as [rgb|]; [|apply quiet_refl].
    pose proof (for_each_quiet (search_step original_data rgb) quality_levels
                  (search_step_quiet original_data rgb)
                  (len original_data, 90, None) w) as Hq.
    unfold mbind at 1. unfold M_bind.
    by destruct (for_each quality_levels _ _ w) as [[st|e] w1].
Qed.

(** *** The file operations, case by case *)

Lemma open_read_cases p w :
  (∃ data, open_read p w = (Ok data, w)
           ∧ files w !! p = Some (RegFile data) ∧ os_read_fault w p = None)
  ∨ (∃ e, open_read p w = (Raise e, w)).
Proof.
  unfold open_read. destruct (files w !! p) as [[data|]|]; [|eauto..].
  destruct (os_read_fault w p); eauto.
Qed.

Lemma image_open_cases p w :
  (∃ data img, image_open p w = (Ok img, w)
               ∧ files w !! p = Some (RegFile data) ∧ pil_open data = Ok img)
  ∨ (∃ e, image_open p w = (Raise e, w)).
Proof.
  unfold image_open.
  destruct (open_read_cases p w) as [(data & Hr & Hf & _)|(e & Hr)].
  - rewrite (bind_ok _ _ _ _ _ Hr). unfold lift.
    destruct (pil_open data) as [img|e] eqn:Ho; [left|right]; eauto.
  - rewrite (bind_raise _ _ _ _ _ Hr). eauto.
Qed.

Lemma open_write_cases p data w : write_result p data w (open_write p data w).
Proof.
  unfold open_write.
  destruct (files w !! p) as [[?|]|]; try constructor;
    destruct (os_write_fault w p data) as [[e|n e]|]; constructor.
Qed.

Lemma os_remove_cases p w : remove_result p w (os_remove p w).
Proof.
  unfold os_remove.
  destruct (files w !! p) as [[data|]|] eqn:E; try constructor.
  destruct (os_remove_fault w p); econstructor. done.
Qed.

Lemma open_write_ok p data w :
  files w !! p ≠ Some Directory →
  os_write_fault w p data = None →
  open_write p data w
  = (Ok tt, mkWorld (<[p := RegFile data]> (files w)) (trace w ++ [EvWrite p data])).
Proof.
  intros Hdir Hfault. unfold open_write. rewrite Hfault.
  by destruct (files w !! p) as [[?|]|].
Qed.

Lemma os_remove_ok p data w :
  files w !! p = Some (RegFile data) →
  os_remove_fault w p = None →
  os_remove p w = (Ok tt, mkWorld (delete p (files w)) (trace w ++ [EvRemove p])).
Proof. intros Hp Hfault. unfold os_remove. by rewrite Hp, Hfault. Qed.

Lemma convert_body_run p w : convert_run p w (convert_body p w).
Proof.
  unfold convert_body.
  destruct (open_read_cases p w) as [(original_data & Hr & Hf & _)|(e & Hr)];
    [rewrite (bind_ok _ _ _ _ _ Hr)
    |rewrite (bind_raise _ _ _ _ _ Hr); apply run_raised_early, quiet_refl].
  destruct (image_open_cases p w) as [(data' & img & Ho & _ & _)|(e & Ho)];
    [rewrite (bind_ok _ _ _ _ _ Ho)
    |rewrite (bind_raise _ _ _ _ _ Ho); apply run_raised_early, quiet_refl].
  pose proof (encode_candidate_quiet original_data img w) as Hq.
  unfold mbind at 1. unfold M_bind.
  destruct (encode_candidate original_data img w) as [[candidate|e] w1];
    simpl in Hq; [|by apply run_raised_early].
  destruct candidate as [webp_data|]; [|by eapply run_skipped].
  destruct (Z.leb_spec (len original_data) (len webp_data)) as [|Hlt];
    [by eapply run_skipped|].
  rewrite bind_lift.
  destruct (Names.with_suffix p ".webp") as [q|e] eqn:Hq'; [|by apply run_raised_early].
  unfold mbind at 1. unfold M_bind.
  destruct (open_write_cases q webp_data w1) as [e|e n|].
  - by apply run_raised_early.
  - by eapply run_torn.
  - unfold mbind at 1. unfold M_bind.
    match goal with |- context [os_remove p ?w2] =>
      destruct (os_remove_cases p w2) as [e|data Hp] end.
    + by eapply run_remove_refused.
    + by eapply run_converted.
Qed.

Lemma convert_to_webp_unfold p w :
  convert_to_webp p w
  = match convert_body p w with
    | (Ok r, w1) => (Ok r, w1)
    | (Raise e, w1) =>
        (Ok (Some (false, FailedToConvert (Names.path_name p) e)),
         mkWorld (files w1) (trace w1 ++ [EvLog (LogProcessingError p e)]))
    end.
Proof.
  unfold convert_to_webp, try_except.
  by destruct (convert_body p w) as [[r|e] w1].
Qed.

(** The end state of one task, by the kind of its result. *)
Lemma convert_to_webp_end_state
    (case_sensitive : bool) (p : Path) (w : World) :
  is_image_name case_sensitive (Names.path_name p) = true →
  ∃ r w', convert_to_webp p w = (Ok r, w') ∧
    match r with
    | Some (true, _) =>
        ∃ q original_data webp_data t,
          Names.with_suffix p ".webp" = Ok q ∧ q ≠ p
          ∧ files w !! p = Some (RegFile original_data)
          ∧ files w' !! q = Some (RegFile webp_data)
          ∧ len webp_data < len original_data
          ∧ files w' !! p = None
          ∧ trace w' = trace w ++ t ++ [EvWrite q webp_data; EvRemove p]
          ∧ disk_events t = []
    | None =>
        (∃ data, files w !! p = Some (RegFile data)) ∧ files w' = files w
    | Some (false, _) =>
        files w' !! p = files w !! p
        ∧ ∃ t, trace w' = trace w ++ t ∧ EvRemove p ∉ t
    end.
Proof.
  intros Himg. rewrite convert_to_webp_unfold.
  destruct (convert_body_run p w)
    as [w1 data [Hf _] Hp
       |w1 e [Hf (t & Ht & Hd)]
       |w1 e q original_data webp_data n [Hf (t & Ht & Hd)] Hq Hp Hlt
       |w1 e q original_data webp_data [Hf (t & Ht & Hd)] Hq Hp Hlt
       |w1 q original_data webp_data [Hf (t & Ht & Hd)] Hq Hp Hlt];
    eexists _, _; (split; [reflexivity|]); simpl.
  - split; eauto.
  - split; [by rewrite Hf|].
    eexists. rewrite Ht, <- app_assoc. split; [reflexivity|].
    rewrite elem_of_app, list_elem_of_singleton.
    intros [Hin|[=]]. by apply (no_disk_event_in _ _ Hd) in Hin.
  - destruct (NamesFacts.with_suffix_webp case_sensitive p q Hq) as [_ Hne].
    split; [rewrite lookup_insert_ne, Hf; [done|]; by apply Hne|].
    eexists. rewrite Ht, <- !app_assoc. split; [reflexivity|].
    rewrite !elem_of_app, !list_elem_of_singleton.
    intros [Hin|[[=]|[=]]]. by apply (no_disk_event_in _ _ Hd) in Hin.
  - destruct (NamesFacts.with_suffix_webp case_sensitive p q Hq) as [_ Hne].
    split; [rewrite lookup_insert_ne, Hf; [done|]; by apply Hne|].
    eexists. rewrite Ht, <- !app_assoc. split; [reflexivity|].
    rewrite !elem_of_app, !list_elem_of_singleton.
    intros [Hin|[[=]|[=]]]. by apply (no_disk_event_in _ _ Hd) in Hin.
  - destruct (NamesFacts.with_suffix_webp case_sensitive p q Hq) as [_ Hne].
    specialize (Hne Himg). exists q, original_data, webp_data, t.
    repeat split; try done.
    + rewrite lookup_delete_ne, lookup_insert_eq; done.
    + apply lookup_delete_eq.
    + rewrite Ht, <- !app_assoc. done.
Qed.

(** C5: the estimator always returns a score, never an exception; the
    score is between 0 and 1, and it is 0, which fails the 0.95 gate,
    whenever the comparison raised. *)
Theorem analyze_image_quality_fail_closed (original_data webp_data : bytes) (w : World) :
  ∃ q w', analyze_image_quality original_data webp_data w = (Ok q, w')
    ∧ files w' = files w
    ∧ (0 <= q <= 1)%Q
    ∧ (∀ e, compare_images original_data webp_data = Raise e →
            q = 0%Q ∧ Qle_bool 0.95 q = false).
Proof.
  destruct (analyze_run original_data webp_data w) as (t & Hrun & _).
  eexists _, _. split; [exact Hrun|]. split; [done|]. split.
  - apply similarity_of_range.
  - intros e He. unfold similarity_of. by rewrite He.
Qed.

(** C4: for two images that decode, the score is one minus the sum of
    the squared channel differences over the pixel grid of the original,
    divided by [pixel_count * 3 * 255^2]; both are converted to RGB, and
    it is the candidate that is resized to the size of the original when
    the sizes differ. *)
Theorem analyze_image_quality_score
    (original_data webp_data : bytes) (img1 img2 rgb1 rgb2 cand : Img) (w : World) :
  pil_open original_data = Ok img1 →
  pil_open webp_data = Ok img2 →
  pil_convert img1 "RGB" = Ok rgb1 →
  pil_convert img2 "RGB" = Ok rgb2 →
  (if decide (pil_size rgb1 = pil_size rgb2)
   then cand = rgb2
   else pil_resize rgb2 (pil_size rgb1) = Ok cand) →
  length (pil_getdata cand) = length (pil_getdata rgb1) →
  pil_getdata rgb1 ≠ [] →
  (analyze_image_quality original_data webp_data w).1
  = Ok (spec_similarity (pil_getdata rgb1) (pil_getdata cand)).
Proof.
  intros Ho1 Ho2 Hc1 Hc2 Hcand Hlen Hne.
  destruct (analyze_run original_data webp_data w) as (t & -> & _). simpl.
  f_equal. unfold similarity_of, compare_images.
  rewrite Ho1, Ho2. simpl. rewrite Hc1, Hc2. simpl.
  assert ((if decide (pil_size rgb1 ≠ pil_size rgb2)
           then pil_resize rgb2 (pil_size rgb1) else mret rgb2) = Ok cand) as ->.
  { destruct (decide (pil_size rgb1 = pil_size rgb2)) as [Heq|Hneq].
    - subst cand. by rewrite decide_False by (intros H; by apply H).
    - by rewrite decide_True. }
  simpl.
  destruct (Z.eqb_spec (len (pil_getdata rgb1) * 3 * 255 ^ 2) 0) as [H0|_].
  { destruct (pil_getdata rgb1); [done|]. unfold len in H0. simpl length in H0. lia. }
  unfold spec_similarity. by rewrite accumulate_diff_spec.
Qed.

Lemma accepts_iff best_size webp_data similarity :
  accepts best_size webp_data similarity = true
  ↔ len webp_data < best_size ∧ (0.95 <= similarity)%Q.
Proof.
  unfold accepts. rewrite andb_true_iff, Z.ltb_lt, Qle_bool_iff. done.
Qed.

(** C2, amended: without an alpha channel the encoder is called at 90, 85
    and 80, in that order and at every level; a level becomes the best
    exactly when its size is strictly below the best size so far, which
    starts at the size of the original, and its score is at least 0.95;
    with no accepted level there is no candidate; and when level 85 is
    smaller than an accepted level 90 and passes, the candidate is the one
    of level 85 unless level 80 is smaller still and passes, and then it
    is the one of level 80. *)
Theorem quality_search_keeps_last_accepted
    (original_data : bytes) (img rgb : Img) (enc : Z → bytes) (w : World) :
  has_alpha_mode img = false →
  pil_convert img "RGB" = Ok rgb →
  (∀ q, q ∈ quality_levels → pil_save_webp rgb false q = Ok (enc q)) →
  let sim q := similarity_of original_data (enc q) in
  let a90 := accepts (len original_data) (enc 90) (sim 90) in
  let b90 := if a90 then len (enc 90) else len original_data in
  let a85 := accepts b90 (enc 85) (sim 85) in
  let b85 := if a85 then len (enc 85) else b90 in
  let a80 := accepts b85 (enc 80) (sim 80) in
  ∃ candidate t,
    encode_candidate original_data img w
    = (Ok candidate, mkWorld (files w) (trace w ++ t))
    ∧ saves t = [(false, 90); (false, 85); (false, 80)]
    ∧ candidate = (if a80 then Some (enc 80)
                   else if a85 then Some (enc 85)
                   else if a90 then Some (enc 90)
                   else None)
    ∧ (∀ best_size webp_data similarity,
         accepts best_size webp_data similarity = true
         ↔ len webp_data < best_size ∧ (0.95 <= similarity)%Q)
    ∧ (a90 = false → a85 = false → a80 = false → candidate = None)
    ∧ (a90 = true → len (enc 85) < len (enc 90) → (0.95 <= sim 85%Z)%Q →
       candidate = if accepts (len (enc 85)) (enc 80) (sim 80)
                   then Some (enc 80) else Some (enc 85)).
Proof.
  intros Halpha Hrgb Hsave sim a90 b90 a85 b85 a80.
  destruct (search_run original_data rgb enc quality_levels Hsave
              (len original_data, 90, None) w) as (t & Hrun & Hs & _).
  unfold encode_candidate. rewrite Halpha, bind_lift, Hrgb.
  rewrite (bind_ok _ _ _ _ _ Hrun).
  eexists _, t. split; [reflexivity|]. split; [exact Hs|].
  assert ((fold_left (pure_step enc (λ q, similarity_of original_data (enc q)))
             quality_levels (len original_data, 90, None)).2
          = (if a80 then Some (enc 80)
             else if a85 then Some (enc 85)
             else if a90 then Some (enc 90)
             else None)) as Hcand.
  { unfold quality_levels. cbn [fold_left]. unfold pure_step at 3. cbn [fst snd].
    fold (sim 90). fold a90. unfold pure_step at 2.
    replace ((if a90 then (len (enc 90), 90, Some (enc 90))
              else (len original_data, 90, None)).1.1) with b90
      by (subst b90; by destruct a90).
    fold (sim 85). fold a85. unfold pure_step.
    replace ((if a85 then (len (enc 85), 85, Some (enc 85))
              else if a90 then (len (enc 90), 90, Some (enc 90))
                   else (len original_data, 90, None)).1.1) with b85
      by (subst b85 b90; by destruct a85, a90).
    fold (sim 80). fold a80. by destruct a80, a85, a90. }
  split; [exact Hcand|]. split; [apply accepts_iff|].
  rewrite Hcand. split.
  - by intros -> -> ->.
  - intros H90 Hlt Hpass.
    assert (a85 = true) as H85.
    { subst a85 b90. rewrite H90. by apply accepts_iff. }
    subst a80 b85. by rewrite H85.
Qed.

Lemma encode_candidate_alpha original_data img alpha webp_data w :
  has_alpha_mode img = true →
  pil_getchannel img "A" = Ok alpha →
  pil_save_webp img true 90 = Ok webp_data →
  encode_candidate original_data img w
  = (Ok (Some webp_data), mkWorld (files w) (trace w ++ [EvSave true 90])).
Proof.
  intros Halpha Hch Hsave. unfold encode_candidate.
  by rewrite Halpha, bind_lift, Hch, bind_emit, bind_lift, Hsave.
Qed.

(** C3: an image in mode RGBA or LA is encoded once, lossless, and the
    estimator is not called; the bytes the encoder gave are the one
    candidate.  When they are not fewer than the original's the result is
    [None] and the files are as they were.  When they are fewer the
    result is not [None]: the candidate is what is written to the
    replacement path, the file is converted when the write and the
    removal succeed, and it is converted whenever the disk does not
    fail. *)
Theorem alpha_image_one_lossless_candidate
    (p : Path) (original_data webp_data : bytes) (img alpha : Img) (w : World) :
  files w !! p = Some (RegFile original_data) →
  os_read_fault w p = None →
  pil_open original_data = Ok img →
  has_alpha_mode img = true →
  pil_getchannel img "A" = Ok alpha →
  pil_save_webp img true 90 = Ok webp_data →
  ∃ r w' t,
    convert_to_webp p w = (Ok r, w')
    ∧ trace w' = trace w ++ t
    ∧ saves t = [(true, 90)]
    ∧ analyses t = []
    ∧ encode_candidate original_data img w
      = (Ok (Some webp_data), mkWorld (files w) (trace w ++ [EvSave true 90]))
    ∧ (len original_data ≤ len webp_data → r = None ∧ files w' = files w)
    ∧ (len webp_data < len original_data →
       r ≠ None
       ∧ (∀ q, Names.with_suffix p ".webp" = Ok q →
            match r with
            | Some (true, m) =>
                m = Converted (Names.path_name p)
                      (savings_percent (len original_data) (len webp_data))
                ∧ files w' = delete p (<[q := RegFile webp_data]> (files w))
                ∧ disk_events t = [EvWrite q webp_data; EvRemove p]
            | _ =>
                (files w' = files w ∧ disk_events t = [])
                ∨ (∃ n : nat,
                     files w' = <[q := RegFile (take n webp_data)]> (files w)
                     ∧ disk_events t = [EvWriteTorn q (take n webp_data)])
                ∨ (files w' = <[q := RegFile webp_data]> (files w)
                   ∧ disk_events t = [EvWrite q webp_data])
            end)
       ∧ (∀ q, Names.with_suffix p ".webp" = Ok q →
            files w !! q ≠ Some Directory →
            (∀ w0, os_write_fault w0 q webp_data = None) →
            (∀ w0, os_remove_fault w0 p = None) →
            is_converted r = true)).
Proof.
  intros Hp Hfault Hopen Halpha Hch Hsave.
  assert (open_read p w = (Ok original_data, w)) as Hread.
  { unfold open_read. by rewrite Hp, Hfault. }
  assert (image_open p w = (Ok img, w)) as Himg.
  { unfold image_open. rewrite (bind_ok _ _ _ _ _ Hread). unfold lift. by rewrite Hopen. }
  pose proof (encode_candidate_alpha original_data img alpha webp_data w
                Halpha Hch Hsave) as Henc.
  rewrite convert_to_webp_unfold. unfold convert_body.
  rewrite (bind_ok _ _ _ _ _ Hread), (bind_ok _ _ _ _ _ Himg), (bind_ok _ _ _ _ _ Henc).
  destruct (Z.leb_spec (len original_data) (len webp_data)) as [Hge|Hlt].
  { eexists _, _, _. split; [reflexivity|]. simpl.
    repeat (split; [done|]). intros ?. lia. }
  rewrite bind_lift.
  destruct (Names.with_suffix p ".webp") as [q|e] eqn:Hq.
  2:{ eexists _, _, _. split; [reflexivity|]. simpl. rewrite <- app_assoc.
      repeat (split; [done|]). split; [intros ?; lia|]. intros _.
      split; [done|]. split; intros q [=]. }
  set (w1 := mkWorld (files w) (trace w ++ [EvSave true 90])).
  unfold mbind at 1. unfold M_bind.
  pose proof (open_write_cases q webp_data w1) as Hwc.
  destruct (open_write q webp_data w1) as [rw ww] eqn:Hw.
  inversion Hwc as [e|e n|]; subst rw ww.
  - eexists _, _, _. split; [reflexivity|]. simpl. rewrite <- app_assoc.
    repeat (split; [done|]). split; [intros ?; lia|]. intros _.
    split; [done|]. split.
    + intros q' [= <-]. by left.
    + intros q' [= <-] Hdir Hwf _.
      rewrite (open_write_ok q webp_data w1 Hdir (Hwf w1)) in Hw. discriminate.
  - eexists _, _, _. split; [reflexivity|]. simpl. rewrite <- !app_assoc.
    repeat (split; [done|]). split; [intros ?; lia|]. intros _.
    split; [done|]. split.
    + intros q' [= <-]. right. left. by exists n.
    + intros q' [= <-] Hdir Hwf _.
      rewrite (open_write_ok q webp_data w1 Hdir (Hwf w1)) in Hw. discriminate.
  - unfold mbind at 1. unfold M_bind.
    match goal with |- context [os_remove p ?w0] => set (w2 := w0) end.
    pose proof (os_remove_cases p w2) as Hrc.
    destruct (os_remove p w2) as [rr wr] eqn:Hrm.
    inversion Hrc as [e|data Hdata]; subst rr wr.
    + eexists _, _, _. split; [reflexivity|]. simpl. rewrite <- !app_assoc.
      repeat (split; [done|]). split; [intros ?; lia|]. intros _.
      split; [done|]. split.
      * intros q' [= <-]. right. right. done.
      * intros q' [= <-] _ _ Hrf.
        assert (∃ d, files w2 !! p = Some (RegFile d)) as [d Hd].
        { simpl. destruct (decide (q = p)) as [->|Hne].
          - rewrite lookup_insert_eq. eauto.
          - rewrite lookup_insert_ne by done. eauto. }
        rewrite (os_remove_ok p d w2 Hd (Hrf w2)) in Hrm. discriminate.
    + eexists _, _, _. split; [reflexivity|]. simpl. rewrite <- !app_assoc.
      repeat (split; [done|]). split; [intros ?; lia|]. intros _.
      split; [done|]. split.
      * intros q' [= <-]. done.
      * done.
Qed.

(** *** The batch *)

Lemma convert_to_webp_total p w : ∃ r w', convert_to_webp p w = (Ok r, w').
Proof.
  rewrite convert_to_webp_unfold.
  destruct (convert_body p w) as [[r|e] w1]; eauto.
Qed.

Lemma convert_to_webp_captures p w e w1 :
  convert_body p w = (Raise e, w1) →
  (convert_to_webp p w).1 = Ok (Some (false, FailedToConvert (Names.path_name p) e)).
Proof. intros H. by rewrite convert_to_webp_unfold, H. Qed.

Lemma executor_map_batch (ps : list Path) (w : World) :
  ∃ rs w', executor_map convert_to_webp ps w = (Ok rs, w') ∧ batch_run ps w rs w'.
Proof.
  revert w. induction ps as [|p ps IH]; intros w.
  - exists [], w. split; [done|constructor].
  - destruct (convert_to_webp_total p w) as (r & w1 & Hr).
    destruct (IH w1) as (rs & w' & Hrs & Hb).
    exists (r :: rs), w'. split; [|by econstructor].
    simpl. rewrite (bind_ok _ _ _ _ _ Hr), (bind_ok _ _ _ _ _ Hrs). done.
Qed.

Lemma batch_run_length ps w rs w' :
  batch_run ps w rs w' → length rs = length ps.
Proof. induction 1; simpl; congruence. Qed.

Lemma batch_run_app l1 l2 w rs w' :
  batch_run (l1 ++ l2) w rs w' →
  ∃ rs1 rs2 w1, rs = rs1 ++ rs2 ∧ batch_run l1 w rs1 w1 ∧ batch_run l2 w1 rs2 w'.
Proof.
  revert w rs. induction l1 as [|p l1 IH]; intros w rs Hb.
  - exists [], rs, w. repeat split; [constructor|done].
  - inversion Hb as [|? ? ? r w1 rs' ? Hr Hrest]; subst.
    destruct (IH _ _ Hrest) as (rs1 & rs2 & w2 & -> & H1 & H2).
    exists (r :: rs1), rs2, w2. repeat split; [by econstructor|done].
Qed.

Lemma count_nonneg kind results : 0 ≤ count kind results.
Proof. unfold count, len. lia. Qed.

Lemma count_cons kind r results :
  count kind (r :: results) = (if kind r then 1 else 0) + count kind results.
Proof. unfold count, len. simpl. destruct (kind r); simpl length; lia. Qed.

Lemma count_app kind rs1 rs2 :
  count kind (rs1 ++ rs2) = count kind rs1 + count kind rs2.
Proof. unfold count, len. rewrite List.filter_app, length_app. lia. Qed.

Lemma count_partition results :
  count is_converted results + count is_skipped results + count is_failed results
  = len results.
Proof.
  induction results as [|r results IH]; [done|].
  rewrite !count_cons. unfold len in *. simpl length.
  destruct r as [[[] m]|]; simpl; lia.
Qed.

Lemma tally_step_run total_files (t : tally) (i : Z) (r : outcome) w :
  ∃ m, tally_step total_files t (i, r) w
       = (Ok (t.1.1 + (if is_converted r then 1 else 0),
              t.1.2 + (if is_skipped r then 1 else 0),
              t.2 + (if is_failed r then 1 else 0)),
          mkWorld (files w) (trace w ++ [EvLog m]))
       ∧ is_summary (EvLog m) = false.
Proof.
  destruct t as [[s k] e].
  destruct r as [[[] m]|]; simpl; rewrite bind_emit, !Z.add_0_r;
    eexists; (split; [reflexivity|done]).
Qed.

(** The loop over the results adds, to each counter, the number of
    results of its kind, and only logs. *)
Lemma tally_run total_files results :
  ∀ i t w, ∃ tr,
    for_each (enumerate results i) (tally_step total_files) t w
    = (Ok (t.1.1 + count is_converted results,
           t.1.2 + count is_skipped results,
           t.2 + count is_failed results),
       mkWorld (files w) (trace w ++ tr))
    ∧ saves tr = [] ∧ disk_events tr = [] ∧ List.filter is_summary tr = [].
Proof.
  induction results as [|r results IH]; intros i t w.
  - exists []. simpl. rewrite app_nil_r. unfold count, len. simpl.
    rewrite !Z.add_0_r. by destruct w, t as [[s k] e].
  - simpl enumerate. simpl for_each. rewrite !count_cons.
    destruct (tally_step_run total_files t i r w) as (m & Hstep & Hm).
    rewrite (bind_ok _ _ _ _ _ Hstep).
    edestruct IH as (tr & -> & Hs & Hd & Hsum).
    exists (EvLog m :: tr). simpl. rewrite <- app_assoc. simpl.
    rewrite !Z.add_assoc. simpl in Hm. rewrite Hm. done.
Qed.

Lemma find_image_files_value directory w :
  find_image_files directory w = (image_files_of (files w) directory, w).
Proof.
  unfold find_image_files, image_files_of, extensions, rglob. simpl.
  unfold mbind, M_bind, res_bind, mret, M_ret, res_ret. simpl.
  change ("*" +:+ ".jpg") with "*.jpg"%string.
  change ("*" +:+ ".jpeg") with "*.jpeg"%string.
  change ("*" +:+ ".png") with "*.png"%string.
  destruct (os_rglob (files w) directory "*.jpg") as [jpg|]; [|done].
  destruct (os_rglob (files w) directory "*.jpeg") as [jpeg|]; [|done].
  destruct (os_rglob (files w) directory "*.png") as [png|]; [|done].
  by rewrite <- app_assoc.
Qed.

(** A run of [process_directory] whose enumeration and pool start
    succeed: the list found at the start is the list processed. *)
Lemma process_directory_run directory image_files w :
  image_files_of (files w) directory = Ok image_files →
  os_pool_start = Ok tt →
  ∃ results w1 tr,
    batch_run image_files
      (mkWorld (files w) (trace w ++ [EvLog (LogFound (len image_files))]))
      results w1
    ∧ process_directory directory w
      = (Ok (count is_converted results, count is_skipped results,
             count is_failed results),
         mkWorld (files w1) (trace w1 ++ tr))
    ∧ saves tr = [] ∧ disk_events tr = [].
Proof.
  intros Hfiles Hpool. unfold process_directory.
  assert (find_image_files directory w = (Ok image_files, w)) as Hfind.
  { by rewrite find_image_files_value, Hfiles. }
  rewrite (bind_ok _ _ _ _ _ Hfind), bind_emit, bind_lift, Hpool.
  set (w0 := mkWorld (files w) (trace w ++ [EvLog (LogFound (len image_files))])).
  destruct (executor_map_batch image_files w0) as (results & w1 & Hmap & Hb).
  rewrite (bind_ok _ _ _ _ _ Hmap).
  destruct (tally_run (len image_files) results 1 (0, 0, 0) w1)
    as (tr & Ht & Hs & Hd & _).
  exists results, w1, tr. split; [exact Hb|]. split; [|done].
  rewrite Ht. simpl. by rewrite !Z.add_0_l.
Qed.

(** A task touches its own path and its replacement path only. *)
Lemma convert_to_webp_frame (p p' : Path) (w w' : World) (r : outcome) :
  convert_to_webp p w = (Ok r, w') →
  p' ≠ p → Names.with_suffix p ".webp" ≠ Ok p' →
  files w' !! p' = files w !! p'.
Proof.
  rewrite convert_to_webp_unfold. intros Hrun Hp Hq.
  destruct (convert_body_run p w)
    as [w1 data [Hf _] _
       |w1 e [Hf _]
       |w1 e q original_data webp_data n [Hf _] Hq' _ _
       |w1 e q original_data webp_data [Hf _] Hq' _ _
       |w1 q original_data webp_data [Hf _] Hq' _ _];
    injection Hrun as _ <-; simpl; rewrite ?lookup_delete_ne by done;
    rewrite ?lookup_insert_ne by congruence; by rewrite Hf.
Qed.

Lemma batch_run_frame (ps : list Path) (p' : Path) (w w' : World) (rs : list outcome) :
  batch_run ps w rs w' →
  (∀ p, p ∈ ps → p' ≠ p ∧ Names.with_suffix p ".webp" ≠ Ok p') →
  files w' !! p' = files w !! p'.
Proof.
  induction 1 as [|p ps w r w1 rs w' Hr _ IH]; intros Hps; [done|].
  rewrite IH by (intros p0 Hp0; apply Hps; by right).
  destruct (Hps p) as [Hne Hq]; [by left|].
  by eapply convert_to_webp_frame.
Qed.

(** At the end of a batch of image files the state of a file is the one
    its own task left, when the file is listed once and no other file of
    the batch has its replacement path. *)
Lemma batch_end_state (case_sensitive : bool) (l1 : list Path) (p : Path)
    (l2 : list Path) (w w' : World) (rs : list outcome) :
  batch_run (l1 ++ p :: l2) w rs w' →
  (∀ p', p' ∈ l1 ++ p :: l2 → is_image_name case_sensitive (Names.path_name p') = true) →
  p ∉ l1 → p ∉ l2 →
  (∀ p', p' ∈ l2 → Names.with_suffix p' ".webp" ≠ Names.with_suffix p ".webp") →
  ∃ r, rs !! length l1 = Some r ∧
    match r with
    | Some (true, _) =>
        ∃ q original_data webp_data,
          Names.with_suffix p ".webp" = Ok q
          ∧ files w !! p = Some (RegFile original_data)
          ∧ files w' !! q = Some (RegFile webp_data)
          ∧ len webp_data < len original_data
          ∧ files w' !! p = None
    | _ => files w' !! p = files w !! p
    end.
Proof.
  intros Hb Himg Hl1 Hl2 Hshare.
  destruct (batch_run_app _ _ _ _ _ Hb) as (rs1 & rs' & w1 & -> & Hb1 & Hb2).
  inversion Hb2 as [|? ? ? r w2 rs2 ? Hr Hb3]; subst.
  assert (is_image_name case_sensitive (Names.path_name p) = true) as Hp.
  { apply Himg. rewrite elem_of_app. right. by left. }
  assert (∀ p0 q0, p0 ∈ l1 ++ p :: l2 → Names.with_suffix p0 ".webp" = Ok q0 →
                   ∀ p1, p1 ∈ l1 ++ p :: l2 → q0 ≠ p1) as Hwebp.
  { intros p0 q0 Hp0 Hq0 p1 Hp1 ->.
    destruct (NamesFacts.with_suffix_webp case_sensitive p0 p1 Hq0) as [Hno _].
    rewrite (Himg p1 Hp1) in Hno. discriminate. }
  assert (files w1 !! p = files w !! p) as Hw1.
  { eapply batch_run_frame; [exact Hb1|]. intros p0 Hp0. split.
    - intros ->. by apply Hl1.
    - intros Hq0. eapply (Hwebp p0 p); [|exact Hq0| |reflexivity];
        rewrite elem_of_app; [by left|right; by left]. }
  assert (files w' !! p = files w2 !! p) as Hw2.
  { eapply batch_run_frame; [exact Hb3|]. intros p0 Hp0. split.
    - intros ->. by apply Hl2.
    - intros Hq0. eapply (Hwebp p0 p); [|exact Hq0| |reflexivity];
        rewrite elem_of_app; right; [by right|by left]. }
  exists r. split.
  { rewrite lookup_app_r, (batch_run_length _ _ _ _ Hb1), Nat.sub_diag by
      (rewrite (batch_run_length _ _ _ _ Hb1); lia). done. }
  destruct (convert_to_webp_end_state case_sensitive p w1 Hp) as (r' & w2' & Hr' & Hend).
  rewrite Hr in Hr'. injection Hr' as <- <-.
  destruct r as [[[] m]|].
  - destruct Hend as (q & original_data & webp_data & t & Hq & Hne & Hf & Hfq & Hlt & Hfp & _).
    exists q, original_data, webp_data. split; [done|]. split; [congruence|].
    split; [|split; [done|congruence]].
    rewrite <- Hfq. eapply batch_run_frame; [exact Hb3|]. intros p0 Hp0. split.
    + eapply (Hwebp p q); [|exact Hq|]; rewrite elem_of_app; right; [by left|by right].
    + rewrite <- Hq. by apply Hshare.
  - destruct Hend as [Hend _]. congruence.
  - destruct Hend as [_ Hend]. congruence.
Qed.

Lemma process_directory_completes directory w t w' :
  process_directory directory w = (Ok t, w') →
  ∃ image_files, image_files_of (files w) directory = Ok image_files
                 ∧ os_pool_start = Ok tt.
Proof.
  unfold process_directory. intros H.
  destruct (image_files_of (files w) directory) as [image_files|e] eqn:Hfiles.
  - exists image_files. split; [done|].
    assert (find_image_files directory w = (Ok image_files, w)) as Hfind.
    { by rewrite find_image_files_value, Hfiles. }
    rewrite (bind_ok _ _ _ _ _ Hfind), bind_emit, bind_lift in H.
    by destruct os_pool_start as [[]|].
  - assert (find_image_files directory w = (Raise e, w)) as Hfind.
    { by rewrite find_image_files_value, Hfiles. }
    by rewrite (bind_raise _ _ _ _ _ Hfind) in H.
Qed.

Lemma process_directory_enumeration_raises (directory : Path) (e : exn) (w : World) :
  image_files_of (files w) directory = Raise e →
  process_directory directory w = (Raise e, w).
Proof.
  intros Hfiles. unfold process_directory.
  assert (find_image_files directory w = (Raise e, w)) as Hfind
    by by rewrite find_image_files_value, Hfiles.
  by rewrite (bind_raise _ _ _ _ _ Hfind).
Qed.

Lemma process_directory_pool_raises (directory : Path) (l : list Path)
    (e : exn) (w : World) :
  image_files_of (files w) directory = Ok l →
  os_pool_start = Raise e →
  process_directory directory w
  = (Raise e, mkWorld (files w) (trace w ++ [EvLog (LogFound (len l))])).
Proof.
  intros Hfiles Hpool. unfold process_directory.
  assert (find_image_files directory w = (Ok l, w)) as Hfind
    by by rewrite find_image_files_value, Hfiles.
  by rewrite (bind_ok _ _ _ _ _ Hfind), bind_emit, bind_lift, Hpool.
Qed.

(** What [main] does, by what its three preparations give. *)
Lemma main_run (w : World) :
  match os_getcwd with
  | Raise e => main w = (Ok 1, mkWorld (files w) (trace w ++ [EvLog (LogFatal e)]))
  | Ok directory =>
      match image_files_of (files w) directory with
      | Raise e =>
          main w = (Ok 1, mkWorld (files w)
                            (trace w ++ [EvLog (LogStarting directory);
                                         EvLog (LogFatal e)]))
      | Ok image_files =>
          match os_pool_start with
          | Raise e =>
              main w = (Ok 1, mkWorld (files w)
                                (trace w ++ [EvLog (LogStarting directory);
                                             EvLog (LogFound (len image_files));
                                             EvLog (LogFatal e)]))
          | Ok _ =>
              ∃ results w1 t,
                batch_run image_files
                  (mkWorld (files w)
                     (trace w ++ [EvLog (LogStarting directory);
                                  EvLog (LogFound (len image_files))]))
                  results w1
                ∧ saves t = [] ∧ disk_events t = []
                ∧ main w
                  = (Ok 0,
                     mkWorld (files w1)
                       (trace w1 ++ t
                        ++ [EvLog LogComplete;
                            EvLog (LogConvertedCount (count is_converted results));
                            EvLog (LogSkippedCount (count is_skipped results));
                            EvLog (LogErrorCount (count is_failed results))]))
          end
      end
  end.
Proof.
  unfold main, try_except. rewrite bind_lift.
  destruct os_getcwd as [directory|e]; [|done].
  rewrite bind_emit.
  set (w0 := mkWorld (files w) (trace w ++ [EvLog (LogStarting directory)])).
  destruct (image_files_of (files w) directory) as [image_files|e] eqn:Hfiles.
  2:{ rewrite (bind_raise _ _ _ _ _
                 (process_directory_enumeration_raises directory e w0 Hfiles)).
      rewrite bind_emit. simpl. by rewrite <- app_assoc. }
  destruct os_pool_start as [[]|e] eqn:Hpool.
  2:{ rewrite (bind_raise _ _ _ _ _
                 (process_directory_pool_raises directory image_files e w0 Hfiles Hpool)).
      rewrite bind_emit. simpl. by rewrite <- !app_assoc. }
  destruct (process_directory_run directory image_files w0 Hfiles Hpool)
    as (results & w1 & t & Hb & Hrun & Hs & Hd).
  exists results, w1, t. simpl in Hb. rewrite <- app_assoc in Hb.
  split; [exact Hb|]. split; [done|]. split; [done|].
  rewrite (bind_ok _ _ _ _ _ Hrun), !bind_emit. simpl.
  by rewrite <- !app_assoc.
Qed.

(** C6: in a run of [process_directory] over the files [l1 ++ p :: l2],
    every task returns a result.  A task whose body raises returns the
    failed result for its own file, with the exception as its message,
    and the tally the run returns counts it as an error; the files after
    it are processed all the same, from the world it left, and the run
    ends with exit status 0. *)
Theorem batch_survives_failures
    (directory : Path) (l1 : list Path) (p : Path) (l2 : list Path) (w : World) :
  image_files_of (files w) directory = Ok (l1 ++ p :: l2) →
  os_pool_start = Ok tt →
  ∃ rs1 r rs2 w1 w2 w3 tr,
    process_directory directory w
    = (Ok (count is_converted (rs1 ++ r :: rs2),
           count is_skipped (rs1 ++ r :: rs2),
           count is_failed (rs1 ++ r :: rs2)),
       mkWorld (files w3) (trace w3 ++ tr))
    ∧ saves tr = [] ∧ disk_events tr = []
    ∧ batch_run l1
        (mkWorld (files w) (trace w ++ [EvLog (LogFound (len (l1 ++ p :: l2)))]))
        rs1 w1
    ∧ convert_to_webp p w1 = (Ok r, w2)
    ∧ batch_run l2 w2 rs2 w3
    ∧ length rs1 = length l1 ∧ length rs2 = length l2
    ∧ (∀ e w4, convert_body p w1 = (Raise e, w4) →
         r = Some (false, FailedToConvert (Names.path_name p) e)
         ∧ w2 = mkWorld (files w4) (trace w4 ++ [EvLog (LogProcessingError p e)])
         ∧ 1 ≤ count is_failed (rs1 ++ r :: rs2))
    ∧ (os_getcwd = Ok directory → (main w).1 = Ok 0).
Proof.
  intros Hfiles Hpool.
  destruct (process_directory_run directory _ w Hfiles Hpool)
    as (rs & w3 & tr & Hb & Hrun & Hs & Hd).
  destruct (batch_run_app _ _ _ _ _ Hb) as (rs1 & rs' & w1 & -> & Hb1 & Hb2).
  inversion Hb2 as [|? ? ? r w2 rs2 ? Hr Hb3]; subst.
  exists rs1, r, rs2, w1, w2, w3, tr.
  split; [exact Hrun|]. split; [exact Hs|]. split; [exact Hd|].
  split; [exact Hb1|]. split; [exact Hr|]. split; [exact Hb3|].
  split; [by eapply batch_run_length|]. split; [by eapply batch_run_length|].
  split.
  - intros e w4 He. rewrite convert_to_webp_unfold, He in Hr.
    injection Hr as <- <-. split; [done|]. split; [done|].
    rewrite count_app, count_cons. simpl.
    pose proof (count_nonneg is_failed rs1). pose proof (count_nonneg is_failed rs2).
    lia.
  - intros Hcwd. pose proof (main_run w) as Hmain.
    rewrite Hcwd, Hfiles, Hpool in Hmain.
    destruct Hmain as (? & ? & ? & _ & _ & _ & ->). done.
Qed.

(** C10: the tally a run returns counts the results of the batch that
    was run, over the files found, from the world as it was: the three
    counters add up to the number of enumerated files, none is negative,
    and they are the numbers of [(True, _)], [None] and [(False, _)]
    results. *)
Theorem tally_counts_outcomes (directory : Path) (w w' : World) (s k e : Z) :
  process_directory directory w = (Ok (s, k, e), w') →
  ∃ image_files results w1 tr,
    find_image_files directory w = (Ok image_files, w)
    ∧ batch_run image_files
        (mkWorld (files w) (trace w ++ [EvLog (LogFound (len image_files))]))
        results w1
    ∧ w' = mkWorld (files w1) (trace w1 ++ tr)
    ∧ saves tr = [] ∧ disk_events tr = []
    ∧ length results = length image_files
    ∧ s + k + e = len image_files
    ∧ 0 ≤ s ∧ 0 ≤ k ∧ 0 ≤ e
    ∧ s = count is_converted results
    ∧ k = count is_skipped results
    ∧ e = count is_failed results.
Proof.
  intros Hrun.
  destruct (process_directory_completes _ _ _ _ Hrun) as (image_files & Hfiles & Hpool).
  destruct (process_directory_run directory image_files w Hfiles Hpool)
    as (results & w1 & tr & Hb & Hrun' & Hs & Hd).
  rewrite Hrun in Hrun'. injection Hrun' as -> -> -> ->.
  exists image_files, results, w1, tr.
  split; [by rewrite find_image_files_value, Hfiles|]. split; [exact Hb|].
  split; [done|]. split; [done|]. split; [done|].
  split; [by eapply batch_run_length|]. split.
  - rewrite count_partition. unfold len. by rewrite (batch_run_length _ _ _ _ Hb).
  - repeat split; try done; apply count_nonneg.
Qed.

(** [main] when the current directory cannot be obtained. *)
Lemma getcwd_error_is_fatal (e : exn) (w : World) :
  os_getcwd = Raise e →
  main w = (Ok 1, mkWorld (files w) (trace w ++ [EvLog (LogFatal e)])).
Proof.
  intros Hcwd. unfold main, try_except. by rewrite bind_lift, Hcwd, bind_emit.
Qed.

(** *** Enumeration with [pathlib] *)

Lemma pathlib_rglob_spec (cs : bool) (fs : gmap Path entry) (directory : Path) (pattern : string) :
  ∃ l, pathlib_rglob cs fs directory pattern = Ok l
       ∧ ∀ p, p ∈ l ↔ fs !! directory = Some Directory
                       ∧ is_Some (fs !! p)
                       ∧ strictly_under directory p
                       ∧ Names.glob_match cs pattern (Names.path_name p) = true.
Proof.
  unfold pathlib_rglob.
  destruct (fs !! directory) as [[data|]|] eqn:Hdir;
    try (exists []; split; [done|]; intros p; split;
         [by intros ?%elem_of_nil|by intros [? _]]).
  eexists. split; [reflexivity|]. intros p.
  rewrite list_elem_of_filter, list_elem_of_fmap. split.
  - intros [[Hu Hm] ([p' x] & -> & Hin%elem_of_map_to_list)]. simpl in *.
    repeat split; eauto; apply Hu.
  - intros (_ & [x Hx] & Hu & Hm). split; [done|].
    exists (p, x). split; [done|]. by apply elem_of_map_to_list.
Qed.

Lemma pathlib_image_files (cs : bool) (fs : gmap Path entry) (directory : Path) :
  os_rglob = pathlib_rglob cs →
  ∃ l, image_files_of fs directory = Ok l
       ∧ ∀ p, p ∈ l ↔ fs !! directory = Some Directory
                       ∧ is_Some (fs !! p)
                       ∧ strictly_under directory p
                       ∧ is_image_name cs (Names.path_name p) = true.
Proof.
  intros Hglob. unfold image_files_of. rewrite Hglob.
  destruct (pathlib_rglob_spec cs fs directory "*.jpg") as (jpg & -> & Hjpg).
  destruct (pathlib_rglob_spec cs fs directory "*.jpeg") as (jpeg & -> & Hjpeg).
  destruct (pathlib_rglob_spec cs fs directory "*.png") as (png & -> & Hpng).
  eexists. split; [reflexivity|]. intros p.
  rewrite !elem_of_app, Hjpg, Hjpeg, Hpng.
  unfold is_image_name, extensions. simpl existsb.
  change ("*" +:+ ".jpg") with "*.jpg"%string.
  change ("*" +:+ ".jpeg") with "*.jpeg"%string.
  change ("*" +:+ ".png") with "*.png"%string.
  rewrite orb_false_r, !orb_true_iff. tauto.
Qed.

(** *** A root that cannot be listed *)

Lemma pathlib_rglob_all_readable (cs : bool) (fs : gmap Path entry) (directory : Path)
    (pattern : string) :
  pathlib_rglob_unreadable cs (λ _, false) fs directory pattern
  = pathlib_rglob cs fs directory pattern.
Proof.
  unfold pathlib_rglob_unreadable, pathlib_rglob.
  destruct (fs !! directory) as [[data|]|]; try done.
  f_equal. apply list_filter_iff. intros p. split.
  - by intros (Hu & Hm & _).
  - intros [Hu Hm]. repeat split; try done; try apply Hu.
    by apply forallb_forall.
Qed.




Lemma converted_for_absent (q : Path) (image_files : list Path) (results : list outcome) :
  q ∉ image_files → converted_for q image_files results = 0.
Proof.
  unfold converted_for. revert results.
  induction image_files as [|p ps IH]; intros [|r rs] Hq; try done.
  apply not_elem_of_cons in Hq as [Hne Hq].
  simpl. rewrite bool_decide_eq_false_2 by done. simpl. by apply IH.
Qed.

Lemma converted_has_replacement p w m w' :
  convert_to_webp p w = (Ok (Some (true, m)), w') →
  ∃ q, Names.with_suffix p ".webp" = Ok q.
Proof.
  rewrite convert_to_webp_unfold.
  destruct (convert_body_run p w); try done. eauto.
Qed.

(** C7: a file that was converted has a replacement path whose name is
    not an image name: no later enumeration lists it, so a later run has
    no result for it and counts no conversion for it. *)
Theorem converted_file_is_not_enumerated_again
    (cs : bool) (p : Path) (m : message) (w0 w1 : World) :
  os_rglob = pathlib_rglob cs →
  convert_to_webp p w0 = (Ok (Some (true, m)), w1) →
  ∃ q, Names.with_suffix p ".webp" = Ok q
    ∧ is_image_name cs (Names.path_name q) = false
    ∧ ∀ (directory : Path) (w2 : World),
        ∃ image_files,
          find_image_files directory w2 = (Ok image_files, w2)
          ∧ (q ∉ image_files)
          ∧ ∀ results w3, batch_run image_files w2 results w3 →
              converted_for q image_files results = 0.
Proof.
  intros Hglob Hconv.
  destruct (converted_has_replacement _ _ _ _ Hconv) as [q Hq].
  destruct (NamesFacts.with_suffix_webp cs p q Hq) as [Hname _].
  exists q. split; [done|]. split; [done|]. intros directory w2.
  destruct (pathlib_image_files cs (files w2) directory Hglob) as (l & Hl & Hin).
  exists l. rewrite find_image_files_value, Hl. split; [done|].
  assert (q ∉ l) as Hq'.
  { intros (_ & _ & _ & Himg)%Hin. congruence. }
  split; [done|]. intros results w3 _. by apply converted_for_absent.
Qed.


(** *** The processed files at the end of their task and of the run *)




End ProgramFacts.

(** ** The program on concrete inputs *)

Open Scope string_scope.
Open Scope list_scope.

Example demo_run :
  (main (os := pathlib_os true ["pics"]) (codec := demo_codec) demo_world).1 = Ok 0
  ∧ (process_directory (os := pathlib_os true ["pics"]) (codec := demo_codec)
       ["pics"] demo_world).1 = Ok (1, 0, 1).
Proof. split; vm_compute; reflexivity. Qed.

Example failed_task_then_converted :
  (executor_map
     (convert_to_webp (os := pathlib_os true ["pics"]) (codec := demo_codec))
     [["pics"; "album.png"]; ["pics"; "missing.jpg"]; ["pics"; "a.jpg"]]
     demo_world).1
  = Ok [Some (false, FailedToConvert "album.png" IsADirectoryError);
        Some (false, FailedToConvert "missing.jpg" FileNotFoundError);
        Some (true, Converted "a.jpg" (savings_percent 10 4))].
Proof. vm_compute. reflexivity. Qed.

(** Two images of one directory that differ in the extension only have
    one replacement path: both tasks convert, and the second write
    replaces what the first wrote. *)
Example shared_stem_shares_replacement :
  let w := mkWorld (<[ ["pics"; "a.png"] := RegFile demo_original ]> demo_files) [] in
  let run := executor_map
               (convert_to_webp (os := pathlib_os true ["pics"]) (codec := demo_codec))
               [["pics"; "a.jpg"]; ["pics"; "a.png"]] w in
  run.1 = Ok [Some (true, Converted "a.jpg" (savings_percent 10 4));
              Some (true, Converted "a.png" (savings_percent 10 4))]
  ∧ disk_events (trace run.2)
    = [EvWrite ["pics"; "a.webp"] (demo_enc 80); EvRemove ["pics"; "a.jpg"];
       EvWrite ["pics"; "a.webp"] (demo_enc 80); EvRemove ["pics"; "a.png"]].
Proof. split; vm_compute; reflexivity. Qed.

(** A failed task keeps the original: with a refused removal next to the
    complete replacement, with a torn write next to what was written. *)
Example failed_tasks_keep_the_original :
  let refused := convert_to_webp (os := undeletable_os) (codec := demo_codec)
                   ["pics"; "a.jpg"] demo_world in
  let torn := convert_to_webp (os := disk_full_os) (codec := demo_codec)
                ["pics"; "a.jpg"] demo_world in
  refused.1 = Ok (Some (false, FailedToConvert "a.jpg" PermissionError))
  ∧ files refused.2 !! ["pics"; "a.jpg"] = Some (RegFile demo_original)
  ∧ files refused.2 !! ["pics"; "a.webp"] = Some (RegFile (demo_enc 80))
  ∧ torn.1 = Ok (Some (false, FailedToConvert "a.jpg" OSError))
  ∧ files torn.2 !! ["pics"; "a.jpg"] = Some (RegFile demo_original)
  ∧ files torn.2 !! ["pics"; "a.webp"] = Some (RegFile (take 2 (demo_enc 80))).
Proof. repeat split; vm_compute; reflexivity. Qed.

Example boundary_score_accepted :
  (similarity_of (codec := demo_codec) boundary_original boundary_candidate == 0.95)%Q
  ∧ accepts (len boundary_original) boundary_candidate
      (similarity_of (codec := demo_codec) boundary_original boundary_candidate) = true
  ∧ accepts (len boundary_original) below_candidate
      (similarity_of (codec := demo_codec) boundary_original below_candidate) = false.
Proof. repeat split; vm_compute; reflexivity. Qed.

Example case_sensitive_enumeration :
  Names.glob_match true "*.jpg" "A.JPG" = false
  ∧ Names.glob_match false "*.jpg" "A.JPG" = true
  ∧ Names.glob_match true "*.jpg" ".jpg" = true
  ∧ Names.with_suffix ["pics"; "a.b.jpg"] ".webp" = Ok ["pics"; "a.b.webp"]
  ∧ Names.with_suffix ["pics"; ".jpg"] ".webp" = Ok ["pics"; ".jpg.webp"].
Proof. repeat split; reflexivity. Qed.

(** Level 85 is smaller than level 90 and both pass the gate, and the
    candidate is the one of level 80, which is what ends up on disk. *)
Lemma level_80_overrides_level_85 :
  let sim q := similarity_of (codec := demo_codec) demo_original (demo_enc q) in
  ∃ img,
    toy_open demo_original = Ok img
    ∧ has_alpha_mode (codec := demo_codec) img = false
    ∧ len (demo_enc 85) < len (demo_enc 90)
    ∧ len (demo_enc 90) < len demo_original
    ∧ Qle_bool 0.95 (sim 90) = true
    ∧ Qle_bool 0.95 (sim 85) = true
    ∧ (encode_candidate (codec := demo_codec) demo_original img demo_world).1
      = Ok (Some (demo_enc 80))
    ∧ demo_enc 80 ≠ demo_enc 85
    ∧ files (convert_to_webp (os := pathlib_os true ["pics"]) (codec := demo_codec)
               ["pics"; "a.jpg"] demo_world).2 !! ["pics"; "a.webp"]
      = Some (RegFile (demo_enc 80)).
Proof.
  eexists. split; [reflexivity|].
  repeat split; try (vm_compute; reflexivity).
  vm_compute. discriminate.
Qed.




(** ** The theorems at the concrete run *)

(** The search over the encodings of [a.jpg]. *)
Lemma demo_search_keeps_level_80 :
  let img := mkToy "RGB" (toy_triples (replicate 9 x10)) in
  let sim q := similarity_of (codec := demo_codec) demo_original (demo_enc q) in
  let a90 := accepts (len demo_original) (demo_enc 90) (sim 90%Z) in
  let b90 := if a90 then len (demo_enc 90) else len demo_original in
  let a85 := accepts b90 (demo_enc 85) (sim 85%Z) in
  let b85 := if a85 then len (demo_enc 85) else b90 in
  let a80 := accepts b85 (demo_enc 80) (sim 80%Z) in
  has_alpha_mode (codec := demo_codec) img = false
  ∧ ∃ candidate t,
      encode_candidate (codec := demo_codec) demo_original img demo_world
      = (Ok candidate, mkWorld (files demo_world) (trace demo_world ++ t))
      ∧ saves t = [(false, 90%Z); (false, 85%Z); (false, 80%Z)]
      ∧ candidate = (if a80 then Some (demo_enc 80)
                     else if a85 then Some (demo_enc 85)
                     else if a90 then Some (demo_enc 90)
                     else None)
      ∧ (∀ best_size webp_data similarity,
           accepts best_size webp_data similarity = true
           ↔ (len webp_data < best_size)%Z ∧ (0.95 <= similarity)%Q)
      ∧ (a90 = false → a85 = false → a80 = false → candidate = None)
      ∧ (a90 = true → (len (demo_enc 85) < len (demo_enc 90))%Z →
         (0.95 <= sim 85%Z)%Q →
         candidate = if accepts (len (demo_enc 85)) (demo_enc 80) (sim 80%Z)
                     then Some (demo_enc 80) else Some (demo_enc 85)).
Proof.
  split; [reflexivity|].
  apply (quality_search_keeps_last_accepted (codec := demo_codec)
           demo_original (mkToy "RGB" (toy_triples (replicate 9 x10)))
           (mkToy "RGB" (toy_triples (replicate 9 x10))) demo_enc demo_world).
  - reflexivity.
  - reflexivity.
  - intros q _. reflexivity.
Defined.

(** A transparent image whose lossless encoding is larger. *)
Lemma demo_alpha_skipped :
  has_alpha_mode (codec := demo_codec) (mkToy "RGBA" (toy_triples (replicate 9 x10))) = true
  ∧ (len alpha_original ≤ len (toy_file "A" 12 x10))%Z
  ∧ ∃ r w' t,
      convert_to_webp (os := pathlib_os true ["pics"]) (codec := demo_codec)
        ["pics"; "logo.png"] alpha_world = (Ok r, w')
      ∧ trace w' = trace alpha_world ++ t
      ∧ saves t = [(true, 90%Z)]
      ∧ analyses t = []
      ∧ encode_candidate (codec := demo_codec) alpha_original
          (mkToy "RGBA" (toy_triples (replicate 9 x10))) alpha_world
        = (Ok (Some (toy_file "A" 12 x10)),
           mkWorld (files alpha_world) (trace alpha_world ++ [EvSave true 90%Z]))
      ∧ ((len alpha_original ≤ len (toy_file "A" 12 x10))%Z →
         r = None ∧ files w' = files alpha_world)
      ∧ ((len (toy_file "A" 12 x10) < len alpha_original)%Z →
         r ≠ None
         ∧ (∀ q, Names.with_suffix ["pics"; "logo.png"] ".webp" = Ok q →
              match r with
              | Some (true, m) =>
                  m = Converted (Names.path_name ["pics"; "logo.png"])
                        (savings_percent (len alpha_original)
                           (len (toy_file "A" 12 x10)))
                  ∧ files w' = delete ["pics"; "logo.png"]
                                 (<[q := RegFile (toy_file "A" 12 x10)]> (files alpha_world))
                  ∧ disk_events t = [EvWrite q (toy_file "A" 12 x10);
                                     EvRemove ["pics"; "logo.png"]]
              | _ =>
                  (files w' = files alpha_world ∧ disk_events t = [])
                  ∨ (∃ n : nat,
                       files w' = <[q := RegFile (take n (toy_file "A" 12 x10))]>
                                    (files alpha_world)
                       ∧ disk_events t = [EvWriteTorn q (take n (toy_file "A" 12 x10))])
                  ∨ (files w' = <[q := RegFile (toy_file "A" 12 x10)]> (files alpha_world)
                     ∧ disk_events t = [EvWrite q (toy_file "A" 12 x10)])
              end)
         ∧ (∀ q, Names.with_suffix ["pics"; "logo.png"] ".webp" = Ok q →
              files alpha_world !! q ≠ Some Directory →
              (∀ w0, os_write_fault (OS := pathlib_os true ["pics"]) w0 q
                       (toy_file "A" 12 x10) = None) →
              (∀ w0, os_remove_fault (OS := pathlib_os true ["pics"]) w0
                       ["pics"; "logo.png"] = None) →
              is_converted r = true)).
Proof.
  split; [reflexivity|]. split; [vm_compute; discriminate|].
  apply (alpha_image_one_lossless_candidate
           (os := pathlib_os true ["pics"]) (codec := demo_codec)
           ["pics"; "logo.png"] alpha_original (toy_file "A" 12 x10)
           (mkToy "RGBA" (toy_triples (replicate 9 x10)))
           (mkToy "RGBA" (toy_triples (replicate 9 x10))) alpha_world);
    reflexivity.
Defined.

(** The score of a candidate of two pixels against three. *)
Lemma demo_score_of_resized_candidate :
  let rgb1 := mkToy "RGB" (toy_triples (replicate 9 x10)) in
  let cand := mkToy "RGB" (resize 3 black (toy_triples (replicate 6 x10))) in
  pil_size (Codec := demo_codec) rgb1
    ≠ pil_size (Codec := demo_codec) (mkToy "RGB" (toy_triples (replicate 6 x10)))
  ∧ (analyze_image_quality (codec := demo_codec) demo_original (demo_enc 90) demo_world).1
    = Ok (spec_similarity (toy_pixels rgb1) (toy_pixels cand)).
Proof.
  split; [vm_compute; discriminate|].
  apply (analyze_image_quality_score (codec := demo_codec)
           demo_original (demo_enc 90)
           (mkToy "RGB" (toy_triples (replicate 9 x10)))
           (mkToy "RGB" (toy_triples (replicate 6 x10)))
           (mkToy "RGB" (toy_triples (replicate 9 x10)))
           (mkToy "RGB" (toy_triples (replicate 6 x10)))
           (mkToy "RGB" (resize 3 black (toy_triples (replicate 6 x10))))
           demo_world).
  - reflexivity.
  - reflexivity.
  - reflexivity.
  - reflexivity.
  - reflexivity.
  - reflexivity.
  - discriminate.
Defined.

(** [a.webp] after the conversion of [a.jpg]. *)
Lemma demo_replacement_not_enumerated :
  ∃ q, Names.with_suffix ["pics"; "a.jpg"] ".webp" = Ok q
    ∧ is_image_name true (Names.path_name q) = false
    ∧ ∀ (directory : Path) (w2 : World),
        ∃ image_files,
          find_image_files (os := pathlib_os true ["pics"]) directory w2
          = (Ok image_files, w2)
          ∧ (q ∉ image_files)
          ∧ ∀ results w3,
              batch_run (os := pathlib_os true ["pics"]) (codec := demo_codec)
                image_files w2 results w3 →
              converted_for q image_files results = 0%Z.
Proof.
  apply (converted_file_is_not_enumerated_again
           (os := pathlib_os true ["pics"]) (codec := demo_codec)
           true ["pics"; "a.jpg"] (Converted "a.jpg" (savings_percent 10 4)) demo_world
           (convert_to_webp (os := pathlib_os true ["pics"]) (codec := demo_codec)
              ["pics"; "a.jpg"] demo_world).2).
  - reflexivity.
  - vm_compute. reflexivity.
Defined.



(** The tally of the run over [pics]. *)
Lemma demo_tally :
  ∃ image_files results w1 tr,
    find_image_files (os := pathlib_os true ["pics"]) ["pics"] demo_world
    = (Ok image_files, demo_world)
    ∧ batch_run (os := pathlib_os true ["pics"]) (codec := demo_codec) image_files
        (mkWorld (files demo_world)
                 (trace demo_world ++ [EvLog (LogFound (len image_files))]))
        results w1
    ∧ (process_directory (os := pathlib_os true ["pics"]) (codec := demo_codec)
         ["pics"] demo_world).2
      = mkWorld (files w1) (trace w1 ++ tr)
    ∧ saves tr = [] ∧ disk_events tr = []
    ∧ length results = length image_files
    ∧ (1 + 0 + 1 = len image_files)%Z
    ∧ (0 ≤ 1)%Z ∧ (0 ≤ 0)%Z ∧ (0 ≤ 1)%Z
    ∧ 1%Z = count is_converted results
    ∧ 0%Z = count is_skipped results
    ∧ 1%Z = count is_failed results.
Proof.
  apply (tally_counts_outcomes (os := pathlib_os true ["pics"]) (codec := demo_codec)
           ["pics"] demo_world
           (process_directory (os := pathlib_os true ["pics"]) (codec := demo_codec)
              ["pics"] demo_world).2 1 0 1).
  vm_compute. reflexivity.
Defined.

(** The run over [pics] with the sub-directory [album.jpg] listed first:
    its task fails and [b.png] is converted. *)
Lemma demo_failure_does_not_stop_the_batch :
  (process_directory (os := pathlib_os true ["pics"]) (codec := demo_codec)
     ["pics"] album_first_world).1 = Ok (1, 0, 1)%Z
  ∧ ∃ rs1 r rs2 w1 w2 w3 tr,
      process_directory (os := pathlib_os true ["pics"]) (codec := demo_codec)
        ["pics"] album_first_world
      = (Ok (count is_converted (rs1 ++ r :: rs2),
             count is_skipped (rs1 ++ r :: rs2),
             count is_failed (rs1 ++ r :: rs2)),
         mkWorld (files w3) (trace w3 ++ tr))
      ∧ saves tr = [] ∧ disk_events tr = []
      ∧ batch_run (os := pathlib_os true ["pics"]) (codec := demo_codec) []
          (mkWorld (files album_first_world)
             (trace album_first_world
              ++ [EvLog (LogFound (len ([] ++ ["pics"; "album.jpg"]
                                           :: [["pics"; "b.png"]])))]))
          rs1 w1
      ∧ convert_to_webp (os := pathlib_os true ["pics"]) (codec := demo_codec)
          ["pics"; "album.jpg"] w1 = (Ok r, w2)
      ∧ batch_run (os := pathlib_os true ["pics"]) (codec := demo_codec)
          [["pics"; "b.png"]] w2 rs2 w3
      ∧ length rs1 = length (@nil Path) ∧ length rs2 = length [["pics"; "b.png"]]
      ∧ (∀ e w4,
           convert_body (os := pathlib_os true ["pics"]) (codec := demo_codec)
             ["pics"; "album.jpg"] w1 = (Raise e, w4) →
           r = Some (false, FailedToConvert (Names.path_name ["pics"; "album.jpg"]) e)
           ∧ w2 = mkWorld (files w4)
                    (trace w4 ++ [EvLog (LogProcessingError ["pics"; "album.jpg"] e)])
           ∧ (1 ≤ count is_failed (rs1 ++ r :: rs2))%Z)
      ∧ (os_getcwd (OS := pathlib_os true ["pics"]) = Ok ["pics"] →
         (main (os := pathlib_os true ["pics"]) (codec := demo_codec)
            album_first_world).1 = Ok 0%Z).
Proof.
  split; [vm_compute; reflexivity|].
  apply (batch_survives_failures (os := pathlib_os true ["pics"]) (codec := demo_codec)
           ["pics"] [] ["pics"; "album.jpg"] [["pics"; "b.png"]] album_first_world).
  - vm_compute. reflexivity.
  - reflexivity.
Defined.


(** * Further properties of the four functions *)

Open Scope Z_scope.

(** ** The similarity estimator *)

Lemma channel_inj a b : channel a = channel b → a = b.
Proof.
  unfold channel. intros H. apply Z2N.inj_iff in H; try lia.
  rewrite !N2Z.id in H.
  pose proof (Byte.of_to_N a) as Ha. pose proof (Byte.of_to_N b) as Hb.
  rewrite H in Ha. congruence.
Qed.

Lemma pixel_diff_zero p1 p2 : pixel_diff p1 p2 = 0 ↔ p1 = p2.
Proof.
  destruct p1 as [[r1 g1] b1], p2 as [[r2 g2] b2]. unfold pixel_diff. split.
  - intros H.
    assert (channel r1 = channel r2 ∧ channel g1 = channel g2
            ∧ channel b1 = channel b2) as (Hr & Hg & Hb) by nia.
    by rewrite (channel_inj _ _ Hr), (channel_inj _ _ Hg), (channel_inj _ _ Hb).
  - intros [= -> -> ->]. lia.
Qed.

Lemma pixel_diff_sym p1 p2 : pixel_diff p1 p2 = pixel_diff p2 p1.
Proof.
  destruct p1 as [[r1 g1] b1], p2 as [[r2 g2] b2]. unfold pixel_diff. nia.
Qed.

Lemma sum_zip_sym (l1 l2 : list pixel) :
  foldr Z.add 0 (map (λ pp, pixel_diff pp.1 pp.2) (zip l1 l2))
  = foldr Z.add 0 (map (λ pp, pixel_diff pp.1 pp.2) (zip l2 l1)).
Proof.
  revert l2. induction l1 as [|a l1 IH]; intros [|b l2]; simpl; try done.
  by rewrite IH, pixel_diff_sym.
Qed.

Lemma accumulate_diff_sym l1 l2 : accumulate_diff l1 l2 = accumulate_diff l2 l1.
Proof. unfold accumulate_diff. rewrite !fold_diff_acc. by rewrite sum_zip_sym. Qed.

Lemma accumulate_diff_zero (l1 l2 : list pixel) :
  length l2 = length l1 → accumulate_diff l1 l2 = 0 ↔ l2 = l1.
Proof.
  unfold accumulate_diff. rewrite fold_diff_acc, Z.add_0_l.
  revert l2. induction l1 as [|a l1 IH]; intros [|b l2] Hlen; try done.
  simpl in Hlen. injection Hlen as Hlen. simpl.
  pose proof (pixel_diff_range a b) as Hab.
  pose proof (sum_pixel_diff_range (zip l1 l2)) as Hrest.
  split.
  - intros H.
    assert (pixel_diff a b = 0) as H1 by lia.
    assert (foldr Z.add 0 (map (λ pp, pixel_diff pp.1 pp.2) (zip l1 l2)) = 0) as H2 by lia.
    apply pixel_diff_zero in H1 as ->. apply (IH l2 Hlen) in H2 as ->. done.
  - intros [= -> ->].
    assert (pixel_diff a a = 0) as -> by by apply pixel_diff_zero.
    assert (foldr Z.add 0 (map (λ pp, pixel_diff pp.1 pp.2) (zip l1 l1)) = 0) as ->
      by by apply (IH l1).
    done.
Qed.

(** The score as a quotient, against 1 and against the threshold. *)
Lemma score_is_one (diff max_diff : Z) :
  0 < max_diff →
  (1 - inject_Z diff / inject_Z max_diff == 1)%Q ↔ diff = 0.
Proof.
  intros Hm. unfold Qeq, Qminus, Qplus, Qopp, Qdiv, Qmult, Qinv, inject_Z. simpl.
  destruct max_diff as [|m|m]; try lia. simpl. split; intros H; nia.
Qed.

Lemma score_passes (diff max_diff : Z) :
  0 < max_diff →
  (0.95 <= 1 - inject_Z diff / inject_Z max_diff)%Q ↔ 20 * diff ≤ max_diff.
Proof.
  intros Hm. unfold Qle, Qminus, Qplus, Qopp, Qdiv, Qmult, Qinv, inject_Z. simpl.
  destruct max_diff as [|m|m]; try lia. simpl. split; intros H; nia.
Qed.

Section EstimatorFacts.

Context {Img : Type} {codec : Codec Img}.

(** The value of the comparison for two images that decode and convert. *)
Lemma compare_images_value
    (original_data webp_data : bytes) (img1 img2 rgb1 rgb2 cand : Img) :
  pil_open original_data = Ok img1 →
  pil_open webp_data = Ok img2 →
  pil_convert img1 "RGB" = Ok rgb1 →
  pil_convert img2 "RGB" = Ok rgb2 →
  (if decide (pil_size rgb1 = pil_size rgb2)
   then cand = rgb2
   else pil_resize rgb2 (pil_size rgb1) = Ok cand) →
  pil_getdata rgb1 ≠ [] →
  compare_images original_data webp_data
  = Ok (1 - inject_Z (accumulate_diff (pil_getdata rgb1) (pil_getdata cand))
            / inject_Z (len (pil_getdata rgb1) * 3 * 255 ^ 2))%Q.
Proof.
  intros Ho1 Ho2 Hc1 Hc2 Hcand Hne. unfold compare_images.
  rewrite Ho1, Ho2. simpl. rewrite Hc1, Hc2. simpl.
  assert ((if decide (pil_size rgb1 ≠ pil_size rgb2)
           then pil_resize rgb2 (pil_size rgb1) else mret rgb2) = Ok cand) as ->.
  { destruct (decide (pil_size rgb1 = pil_size rgb2)) as [Heq|Hneq].
    - subst cand. by rewrite decide_False by (intros H; by apply H).
    - by rewrite decide_True. }
  simpl.
  destruct (Z.eqb_spec (len (pil_getdata rgb1) * 3 * 255 ^ 2) 0) as [H0|_]; [|done].
  destruct (pil_getdata rgb1); [done|]. unfold len in H0. simpl length in H0. lia.
Qed.

Lemma max_diff_pos (pixels : list pixel) : pixels ≠ [] → 0 < len pixels * 3 * 255 ^ 2.
Proof. destruct pixels; [done|]. unfold len. simpl length. lia. Qed.

(** X1: an image compared with itself scores 1 and passes the gate. *)
Theorem identical_images_score_one (data : bytes) (img rgb : Img) (w : World) :
  pil_open data = Ok img →
  pil_convert img "RGB" = Ok rgb →
  pil_getdata rgb ≠ [] →
  ∃ q, (analyze_image_quality data data w).1 = Ok q
       ∧ (q == 1)%Q ∧ Qle_bool 0.95 q = true.
Proof.
  intros Ho Hc Hne.
  destruct (analyze_run data data w) as (t & -> & _). simpl.
  eexists. split; [reflexivity|]. unfold similarity_of.
  rewrite (compare_images_value data data img img rgb rgb rgb Ho Ho Hc Hc) by
    (by rewrite ?decide_True).
  assert (accumulate_diff (pil_getdata rgb) (pil_getdata rgb) = 0) as ->
    by by apply accumulate_diff_zero.
  assert (1 - inject_Z 0 / inject_Z (len (pil_getdata rgb) * 3 * 255 ^ 2) == 1)%Q as H1.
  { apply score_is_one; [by apply max_diff_pos|done]. }
  split; [exact H1|]. apply Qle_bool_iff. rewrite H1. discriminate.
Qed.

(** X2: over grids of one size, the score is 1 for the same pixels and
    only for them. *)
Theorem score_one_iff_same_pixels
    (original_data webp_data : bytes) (img1 img2 rgb1 rgb2 cand : Img) :
  pil_open original_data = Ok img1 →
  pil_open webp_data = Ok img2 →
  pil_convert img1 "RGB" = Ok rgb1 →
  pil_convert img2 "RGB" = Ok rgb2 →
  (if decide (pil_size rgb1 = pil_size rgb2)
   then cand = rgb2
   else pil_resize rgb2 (pil_size rgb1) = Ok cand) →
  length (pil_getdata cand) = length (pil_getdata rgb1) →
  pil_getdata rgb1 ≠ [] →
  (similarity_of original_data webp_data == 1)%Q
  ↔ pil_getdata cand = pil_getdata rgb1.
Proof.
  intros Ho1 Ho2 Hc1 Hc2 Hcand Hlen Hne. unfold similarity_of.
  rewrite (compare_images_value _ _ _ _ _ _ _ Ho1 Ho2 Hc1 Hc2 Hcand Hne).
  rewrite score_is_one by by apply max_diff_pos.
  by apply accumulate_diff_zero.
Qed.

(** X3: the candidate passes the gate exactly when twenty times the sum
    of the squared differences is at most [pixel_count * 3 * 255^2]. *)
Theorem gate_is_a_bound_on_the_squared_differences
    (original_data webp_data : bytes) (img1 img2 rgb1 rgb2 cand : Img) :
  pil_open original_data = Ok img1 →
  pil_open webp_data = Ok img2 →
  pil_convert img1 "RGB" = Ok rgb1 →
  pil_convert img2 "RGB" = Ok rgb2 →
  (if decide (pil_size rgb1 = pil_size rgb2)
   then cand = rgb2
   else pil_resize rgb2 (pil_size rgb1) = Ok cand) →
  pil_getdata rgb1 ≠ [] →
  Qle_bool 0.95 (similarity_of original_data webp_data) = true
  ↔ 20 * accumulate_diff (pil_getdata rgb1) (pil_getdata cand)
    ≤ len (pil_getdata rgb1) * 3 * 255 ^ 2.
Proof.
  intros Ho1 Ho2 Hc1 Hc2 Hcand Hne. unfold similarity_of.
  rewrite (compare_images_value _ _ _ _ _ _ _ Ho1 Ho2 Hc1 Hc2 Hcand Hne).
  rewrite Qle_bool_iff. apply score_passes. by apply max_diff_pos.
Qed.

(** X4: for two images of one size and one number of pixels the score
    does not depend on which of them is the original. *)
Theorem score_symmetric_for_equal_sizes
    (data1 data2 : bytes) (img1 img2 rgb1 rgb2 : Img) :
  pil_open data1 = Ok img1 →
  pil_open data2 = Ok img2 →
  pil_convert img1 "RGB" = Ok rgb1 →
  pil_convert img2 "RGB" = Ok rgb2 →
  pil_size rgb1 = pil_size rgb2 →
  length (pil_getdata rgb1) = length (pil_getdata rgb2) →
  similarity_of data1 data2 = similarity_of data2 data1.
Proof.
  intros Ho1 Ho2 Hc1 Hc2 Hsize Hlen. unfold similarity_of, compare_images.
  rewrite Ho1, Ho2. simpl. rewrite Hc1, Hc2. simpl.
  rewrite !decide_False by (intros H; apply H; congruence). simpl.
  unfold len. rewrite Hlen, accumulate_diff_sym. done.
Qed.

End EstimatorFacts.

(** ** One task *)

Lemma savings_percent_range (original_size webp_size : Z) :
  0 ≤ webp_size < original_size →
  (0 < savings_percent original_size webp_size <= 100)%Q.
Proof.
  intros H. unfold savings_percent, Qlt, Qle, Qdiv, Qmult, Qinv, inject_Z. simpl.
  destruct original_size as [|o|o]; try lia. simpl. nia.
Qed.

Section TaskFacts.

Context {Img : Type} {codec : Codec Img} {os : OS}.

(** X5: the message of a converted file names the file and gives the
    share of the original's bytes that was saved, more than 0 and at most
    100 percent; the bytes are those of the original as read and of the
    replacement as written. *)
Theorem converted_reports_its_savings (p : Path) (m : message) (w w' : World) :
  convert_to_webp p w = (Ok (Some (true, m)), w') →
  ∃ q original_data webp_data t,
    files w !! p = Some (RegFile original_data)
    ∧ trace w' = t ++ [EvWrite q webp_data; EvRemove p]
    ∧ m = Converted (Names.path_name p)
                    (savings_percent (len original_data) (len webp_data))
    ∧ (0 < savings_percent (len original_data) (len webp_data) <= 100)%Q.
Proof.
  rewrite convert_to_webp_unfold.
  destruct (convert_body_run p w)
    as [| | | |w1 q original_data webp_data _ _ Hp Hlt]; try done.
  intros [= <- <-]. exists q, original_data, webp_data, (trace w1).
  split; [done|]. split; [by rewrite <- app_assoc|]. split; [done|].
  apply savings_percent_range. unfold len in *. lia.
Qed.


(** X7: an original of zero bytes is never converted and nothing is
    written: no encoding is smaller than it. *)
Theorem empty_original_is_never_converted (p : Path) (w : World) :
  files w !! p = Some (RegFile []) →
  ∃ r w' t, convert_to_webp p w = (Ok r, w')
    ∧ is_converted r = false
    ∧ files w' = files w
    ∧ trace w' = trace w ++ t ∧ disk_events t = [].
Proof.
  intros Hp. rewrite convert_to_webp_unfold.
  destruct (convert_body_run p w)
    as [w1 data [Hf (t & Ht & Hd)] _
       |w1 e [Hf (t & Ht & Hd)]
       |w1 e q original_data webp_data n _ _ Hp' Hlt
       |w1 e q original_data webp_data _ _ Hp' Hlt
       |w1 q original_data webp_data _ _ Hp' Hlt].
  - exists None, w1, t. done.
  - eexists _, _, (t ++ [EvLog (LogProcessingError p e)]).
    split; [reflexivity|]. simpl. rewrite Ht, <- app_assoc.
    repeat split; try done. by rewrite disk_events_app, Hd.
  - rewrite Hp in Hp'. injection Hp' as <-. unfold len in Hlt. simpl in Hlt. lia.
  - rewrite Hp in Hp'. injection Hp' as <-. unfold len in Hlt. simpl in Hlt. lia.
  - rewrite Hp in Hp'. injection Hp' as <-. unfold len in Hlt. simpl in Hlt. lia.
Qed.

(** X8: a task leaves every path alone but its own and the one of its
    replacement. *)
Theorem task_leaves_other_paths_alone (p p' : Path) (w : World) :
  p' ≠ p →
  Names.with_suffix p ".webp" ≠ Ok p' →
  files (convert_to_webp p w).2 !! p' = files w !! p'.
Proof.
  intros Hp Hq. destruct (convert_to_webp_total p w) as (r & w' & Hr).
  rewrite Hr. simpl. by eapply convert_to_webp_frame.
Qed.

(** X9: the disk events of a task are, in this order, at most one write,
    to the replacement path, and at most one removal, of the original and
    after a complete write; a task that returns [None] has none, and a
    failed task has no removal. *)
Theorem task_disk_events (p : Path) (w : World) :
  ∃ r w' t, convert_to_webp p w = (Ok r, w')
    ∧ trace w' = trace w ++ t
    ∧ match r with
      | Some (true, _) =>
          ∃ q webp_data, Names.with_suffix p ".webp" = Ok q
            ∧ disk_events t = [EvWrite q webp_data; EvRemove p]
      | None => disk_events t = []
      | Some (false, _) =>
          disk_events t = []
          ∨ ∃ q written, Names.with_suffix p ".webp" = Ok q
              ∧ (disk_events t = [EvWriteTorn q written]
                 ∨ disk_events t = [EvWrite q written])
      end.
Proof.
  rewrite convert_to_webp_unfold.
  destruct (convert_body_run p w)
    as [w1 data [Hf (t & Ht & Hd)] _
       |w1 e [Hf (t & Ht & Hd)]
       |w1 e q original_data webp_data n [Hf (t & Ht & Hd)] Hq _ _
       |w1 e q original_data webp_data [Hf (t & Ht & Hd)] Hq _ _
       |w1 q original_data webp_data [Hf (t & Ht & Hd)] Hq _ _].
  - exists None, w1, t. done.
  - eexists _, _, (t ++ [EvLog (LogProcessingError p e)]).
    split; [reflexivity|]. simpl. rewrite Ht, <- app_assoc. split; [done|].
    left. by rewrite disk_events_app, Hd.
  - eexists _, _, (t ++ [EvWriteTorn q (take n webp_data); EvLog (LogProcessingError p e)]).
    split; [reflexivity|]. simpl. rewrite Ht, <- !app_assoc. split; [done|].
    right. exists q, (take n webp_data). split; [done|]. left.
    by rewrite disk_events_app, Hd.
  - eexists _, _, (t ++ [EvWrite q webp_data; EvLog (LogProcessingError p e)]).
    split; [reflexivity|]. simpl. rewrite Ht, <- !app_assoc. split; [done|].
    right. exists q, webp_data. split; [done|]. right.
    by rewrite disk_events_app, Hd.
  - eexists _, _, (t ++ [EvWrite q webp_data; EvRemove p]).
    split; [reflexivity|]. simpl. rewrite Ht, <- !app_assoc. split; [done|].
    exists q, webp_data. split; [done|]. by rewrite disk_events_app, Hd.
Qed.

(** X10: converting a file a second time fails with the error of
    opening a path that has no entry, and changes nothing: the first
    conversion removed the file.  The error is "file not found" on every
    disk where no component of the path above the file is a regular
    file. *)
Theorem second_conversion_fails (case_sensitive : bool) (p : Path)
    (m : message) (w w1 : World) :
  is_image_name case_sensitive (Names.path_name p) = true →
  convert_to_webp p w = (Ok (Some (true, m)), w1) →
  ∃ e,
    convert_to_webp p w1
    = (Ok (Some (false, FailedToConvert (Names.path_name p) e)),
       mkWorld (files w1) (trace w1 ++ [EvLog (LogProcessingError p e)]))
    ∧ (e = FileNotFoundError ∨ e = NotADirectoryError)
    ∧ ((∀ (k : nat) data, (k < length p)%nat → files w !! take k p ≠ Some (RegFile data)) →
       e = FileNotFoundError).
Proof.
  intros Himg Hrun.
  destruct (convert_to_webp_end_state case_sensitive p w Himg) as (r & w' & Hr & Hend).
  rewrite Hrun in Hr. injection Hr as <- <-.
  destruct Hend as (q & od & wd & t & Hq & _ & _ & _ & _ & Hgone & _).
  exists (absent_error (files w1) p). split.
  { rewrite convert_to_webp_unfold. unfold convert_body.
    assert (open_read p w1 = (Raise (absent_error (files w1) p), w1)) as Hread.
    { unfold open_read. by rewrite Hgone. }
    by rewrite (bind_raise _ _ _ _ _ Hread). }
  split; [apply absent_error_cases|].
  intros Hno. destruct (absent_error_cases (files w1) p) as [?|Hnd]; [done|].
  apply absent_error_not_a_directory in Hnd as (k & data & Hk & Hfile & _).
  exfalso. apply (Hno k data); [lia|].
  rewrite <- Hfile. symmetry.
  apply (convert_to_webp_frame p (take k p) w w1 _ Hrun).
  - intros Heq. apply (f_equal length) in Heq. rewrite length_take in Heq. lia.
  - rewrite Hq. intros [= Heq]. apply NamesFacts.with_suffix_length in Hq.
    apply (f_equal length) in Heq. rewrite length_take in Heq. lia.
Qed.

End TaskFacts.

(** ** The quality search *)

(** What the loop without effects keeps, from any state and over any
    list of levels: a size that never grows, below the size of every
    passing level met; and either the state it started from or a level of
    the list that passed below the starting size. *)
Lemma fold_pure_step (enc : Z → bytes) (sim : Z → Q) (levels : list Z) :
  ∀ st : best,
    let st' := fold_left (pure_step enc sim) levels st in
    st'.1.1 ≤ st.1.1
    ∧ (∀ q, q ∈ levels → Qle_bool 0.95 (sim q) = true → st'.1.1 ≤ len (enc q))
    ∧ (st' = st
       ∨ ∃ q, q ∈ levels ∧ st'.2 = Some (enc q) ∧ st'.1.1 = len (enc q)
              ∧ len (enc q) < st.1.1 ∧ Qle_bool 0.95 (sim q) = true).
Proof.
  induction levels as [|q levels IH]; intros st; simpl.
  - split; [lia|]. split; [by intros q ?%elem_of_nil|by left].
  - destruct (IH (pure_step enc sim st q)) as (Hle & Hmin & Hres).
    unfold pure_step in Hle, Hmin, Hres |- *. unfold accepts in *.
    destruct (Z.ltb_spec (len (enc q)) st.1.1) as [Hlt|Hge]; simpl in *;
      [destruct (Qle_bool 0.95 (sim q)) eqn:Hpass; simpl in *|].
    + split; [lia|]. split.
      * intros q' [->|Hin]%elem_of_cons Hq'; [lia|by apply Hmin].
      * right. destruct Hres as [->|(q' & Hin & H1 & H2 & H3 & H4)].
        -- exists q. split; [by left|done].
        -- exists q'. split; [by right|]. repeat split; try done. lia.
    + split; [done|]. split.
      * intros q' [->|Hin]%elem_of_cons Hq'; [congruence|by apply Hmin].
      * destruct Hres as [->|(q' & Hin & H)]; [by left|].
        right. exists q'. split; [by right|done].
    + split; [done|]. split.
      * intros q' [->|Hin]%elem_of_cons Hq'; [lia|by apply Hmin].
      * destruct Hres as [->|(q' & Hin & H)]; [by left|].
        right. exists q'. split; [by right|done].
Qed.

Section SearchFacts.

Context {Img : Type} {codec : Codec Img} {os : OS}.

(** X11: when the encoder succeeds at the three levels, the candidate of
    an opaque image is a smallest one among the encodings that pass the
    gate, and it is smaller than the original; there is no candidate
    exactly when no passing encoding is smaller than the original. *)
Theorem search_returns_a_smallest_passing_encoding
    (original_data : bytes) (img rgb : Img) (enc : Z → bytes) (w : World) :
  has_alpha_mode img = false →
  pil_convert img "RGB" = Ok rgb →
  (∀ q, q ∈ quality_levels → pil_save_webp rgb false q = Ok (enc q)) →
  let passes q := Qle_bool 0.95 (similarity_of original_data (enc q)) = true in
  ∃ candidate w',
    encode_candidate original_data img w = (Ok candidate, w')
    ∧ (candidate = None
       ↔ ∀ q, q ∈ quality_levels → passes q → len original_data ≤ len (enc q))
    ∧ (∀ webp_data, candidate = Some webp_data →
         ∃ q, q ∈ quality_levels ∧ webp_data = enc q
              ∧ len webp_data < len original_data ∧ passes q
              ∧ ∀ q', q' ∈ quality_levels → passes q' → len webp_data ≤ len (enc q')).
Proof.
  intros Halpha Hrgb Hsave passes.
  destruct (search_run original_data rgb enc quality_levels Hsave
              (len original_data, 90, None) w) as (t & Hrun & _).
  pose proof (fold_pure_step enc (λ q, similarity_of original_data (enc q))
                quality_levels (len original_data, 90, None)) as Hfold.
  cbv zeta in Hfold. cbn [fst snd] in Hfold.
  remember (fold_left (pure_step enc (λ q, similarity_of original_data (enc q)))
              quality_levels (len original_data, 90, None)) as st' eqn:Hst.
  destruct Hfold as (Hle & Hmin & Hres).
  unfold encode_candidate. rewrite Halpha, bind_lift, Hrgb, (bind_ok _ _ _ _ _ Hrun).
  eexists _, _. split; [reflexivity|].
  destruct Hres as [->|(q & Hin & Hsome & Hsize & Hlt & Hpass)]; cbn [fst snd] in *.
  - split; [|done]. split; [|done]. intros _ q Hin Hq. by apply Hmin.
  - rewrite Hsome. split.
    + split; [done|]. intros Hnone. specialize (Hnone q Hin Hpass). lia.
    + intros webp_data [= <-]. exists q. repeat split; try done.
      intros q' Hin' Hq'. rewrite <- Hsize. by apply Hmin.
Qed.

(** The state of the search is the starting one or an accepted encoding
    of one of the levels tried, whatever the encoder does. *)
Lemma search_state_sound (original_data : bytes) (rgb : Img) (levels : list Z) :
  ∀ (st st' : best) (w w' : World),
    for_each levels (search_step original_data rgb) st w = (Ok st', w') →
    st'.1.1 ≤ st.1.1
    ∧ (st'.2 = st.2
       ∨ ∃ q webp_data, q ∈ levels ∧ pil_save_webp rgb false q = Ok webp_data
           ∧ st'.2 = Some webp_data ∧ len webp_data < st.1.1
           ∧ Qle_bool 0.95 (similarity_of original_data webp_data) = true).
Proof.
  induction levels as [|q levels IH]; intros st st' w w' Hrun.
  - simpl in Hrun. injection Hrun as <- _. split; [lia|by left].
  - cbn [for_each] in Hrun.
    destruct (pil_save_webp rgb false q) as [webp_data|e] eqn:Hsave.
    + destruct (search_step_run original_data rgb st q webp_data w Hsave)
        as (t & Hstep & _).
      rewrite (bind_ok _ _ _ _ _ Hstep) in Hrun.
      apply IH in Hrun as [Hle Hres]. unfold accepts in *.
      destruct (Z.ltb_spec (len webp_data) st.1.1) as [Hlt|Hge]; simpl in *;
        [destruct (Qle_bool 0.95 (similarity_of original_data webp_data)) eqn:Hpass;
         simpl in *|].
      * split; [lia|]. right.
        destruct Hres as [->|(q' & d & Hin & Hs & H1 & H2 & H3)].
        -- exists q, webp_data. split; [by left|done].
        -- exists q', d. split; [by right|]. repeat split; try done. lia.
      * split; [done|]. destruct Hres as [->|(q' & d & Hin & H)]; [by left|].
        right. exists q', d. split; [by right|done].
      * split; [done|]. destruct Hres as [->|(q' & d & Hin & H)]; [by left|].
        right. exists q', d. split; [by right|done].
    + assert (search_step original_data rgb st q w
              = (Raise e, mkWorld (files w) (trace w ++ [EvSave false q]))) as Hstep.
      { unfold search_step. by rewrite bind_emit, bind_lift, Hsave. }
      by rewrite (bind_raise _ _ _ _ _ Hstep) in Hrun.
Qed.

(** X12: an opaque image is only ever replaced by an encoding of one of
    the three levels that is smaller than the original and scores at
    least 0.95 against it, whatever the encoder and the disk do. *)
Theorem opaque_replacement_passed_the_gate
    (p : Path) (original_data : bytes) (img : Img) (m : message) (w w' : World) :
  files w !! p = Some (RegFile original_data) →
  pil_open original_data = Ok img →
  has_alpha_mode img = false →
  convert_to_webp p w = (Ok (Some (true, m)), w') →
  ∃ rgb quality webp_data q t,
    pil_convert img "RGB" = Ok rgb
    ∧ quality ∈ quality_levels
    ∧ pil_save_webp rgb false quality = Ok webp_data
    ∧ len webp_data < len original_data
    ∧ Qle_bool 0.95 (similarity_of original_data webp_data) = true
    ∧ trace w' = t ++ [EvWrite q webp_data; EvRemove p].
Proof.
  intros Hp Hopen Halpha. rewrite convert_to_webp_unfold. unfold convert_body.
  destruct (os_read_fault w p) as [e|] eqn:Hfault.
  { assert (open_read p w = (Raise e, w)) as Hread
      by (unfold open_read; by rewrite Hp, Hfault).
    by rewrite (bind_raise _ _ _ _ _ Hread). }
  assert (open_read p w = (Ok original_data, w)) as Hread
    by (unfold open_read; by rewrite Hp, Hfault).
  assert (image_open p w = (Ok img, w)) as Himg.
  { unfold image_open. rewrite (bind_ok _ _ _ _ _ Hread). unfold lift. by rewrite Hopen. }
  rewrite (bind_ok _ _ _ _ _ Hread), (bind_ok _ _ _ _ _ Himg).
  unfold encode_candidate. rewrite Halpha.
  unfold mbind at 1. unfold M_bind at 1. rewrite bind_lift.
  destruct (pil_convert img "RGB") as [rgb|e] eqn:Hrgb; [|done].
  unfold mbind at 1. unfold M_bind at 1.
  destruct (for_each quality_levels (search_step original_data rgb)
              (len original_data, 90, None) w) as [[st|e] w1] eqn:Hsearch; [|done].
  apply search_state_sound in Hsearch as [_ Hres]. simpl in Hres.
  unfold mret at 1. unfold M_ret at 1.
  destruct Hres as [->|(quality & webp_data & Hin & Hsave & -> & Hlt & Hpass)]; [done|].
  destruct (Z.leb_spec (len original_data) (len webp_data)) as [|_]; [done|].
  rewrite bind_lift.
  destruct (Names.with_suffix p ".webp") as [q|e]; [|done].
  unfold mbind at 1. unfold M_bind at 1.
  destruct (open_write_cases q webp_data w1) as [e|e n|]; [done..|].
  unfold mbind at 1. unfold M_bind at 1.
  match goal with |- context [os_remove p ?w2] =>
    destruct (os_remove_cases p w2) as [e|data Hdata] end; [done|].
  intros [= <- <-]. exists rgb, quality, webp_data, q, (trace w1).
  simpl. rewrite <- app_assoc. done.
Qed.

(** X13: a transparent image whose lossless encoding is smaller is
    replaced by exactly that encoding when the disk does not fail; its
    score is not asked for. *)
Theorem alpha_image_is_replaced_by_its_lossless_encoding
    (p q : Path) (original_data webp_data : bytes) (img alpha : Img) (w : World) :
  files w !! p = Some (RegFile original_data) →
  pil_open original_data = Ok img →
  has_alpha_mode img = true →
  pil_getchannel img "A" = Ok alpha →
  pil_save_webp img true 90 = Ok webp_data →
  len webp_data < len original_data →
  Names.with_suffix p ".webp" = Ok q →
  files w !! q ≠ Some Directory →
  (∀ w0, os_read_fault w0 p = None) →
  (∀ w0, os_write_fault w0 q webp_data = None) →
  (∀ w0, os_remove_fault w0 p = None) →
  q ≠ p →
  convert_to_webp p w
  = (Ok (Some (true, Converted (Names.path_name p)
                       (savings_percent (len original_data) (len webp_data)))),
     mkWorld (delete p (<[q := RegFile webp_data]> (files w)))
             (trace w ++ [EvSave true 90; EvWrite q webp_data; EvRemove p])).
Proof.
  intros Hp Hopen Halpha Hch Hsave Hlt Hq Hdir Hread Hwrite Hremove Hne.
  assert (open_read p w = (Ok original_data, w)) as Hr
    by (unfold open_read; by rewrite Hp, Hread).
  assert (image_open p w = (Ok img, w)) as Himg.
  { unfold image_open. rewrite (bind_ok _ _ _ _ _ Hr). unfold lift. by rewrite Hopen. }
  pose proof (encode_candidate_alpha original_data img alpha webp_data w
                Halpha Hch Hsave) as Henc.
  rewrite convert_to_webp_unfold. unfold convert_body.
  rewrite (bind_ok _ _ _ _ _ Hr), (bind_ok _ _ _ _ _ Himg), (bind_ok _ _ _ _ _ Henc).
  destruct (Z.leb_spec (len original_data) (len webp_data)) as [|_]; [lia|].
  rewrite bind_lift, Hq.
  set (w1 := mkWorld (files w) (trace w ++ [EvSave true 90])).
  assert (open_write q webp_data w1
          = (Ok tt, mkWorld (<[q := RegFile webp_data]> (files w1))
                            (trace w1 ++ [EvWrite q webp_data]))) as Hw.
  { unfold open_write. rewrite Hwrite. simpl.
    destruct (files w !! q) as [[?|]|]; done. }
  rewrite (bind_ok _ _ _ _ _ Hw).
  set (w2 := mkWorld (<[q := RegFile webp_data]> (files w1))
                     (trace w1 ++ [EvWrite q webp_data])).
  assert (os_remove p w2
          = (Ok tt, mkWorld (delete p (files w2)) (trace w2 ++ [EvRemove p]))) as Hrm.
  { unfold os_remove. simpl. rewrite lookup_insert_ne, Hp, Hremove by done. done. }
  rewrite (bind_ok _ _ _ _ _ Hrm). simpl. by rewrite <- !app_assoc.
Qed.

End SearchFacts.

(** ** The batch and the run *)

Section RunFacts.

Context {Img : Type} {codec : Codec Img} {os : OS}.

Lemma convert_to_webp_trace (p : Path) (w w' : World) (r : outcome) :
  convert_to_webp p w = (Ok r, w') → ∃ t, trace w' = trace w ++ t.
Proof.
  rewrite convert_to_webp_unfold.
  destruct (convert_body_run p w)
    as [w1 data [_ (t & Ht & _)] _
       |w1 e [_ (t & Ht & _)]
       |w1 e q original_data webp_data n [_ (t & Ht & _)] _ _ _
       |w1 e q original_data webp_data [_ (t & Ht & _)] _ _ _
       |w1 q original_data webp_data [_ (t & Ht & _)] _ _ _];
    intros [= _ <-]; simpl; rewrite Ht, <- ?app_assoc; eauto.
Qed.

Lemma batch_run_trace (ps : list Path) (w w' : World) (rs : list outcome) :
  batch_run ps w rs w' → ∃ t, trace w' = trace w ++ t.
Proof.
  induction 1 as [w|p ps w r w1 rs w' Hr _ [t2 Ht2]].
  - exists []. by rewrite app_nil_r.
  - destruct (convert_to_webp_trace _ _ _ _ Hr) as [t1 Ht1].
    exists (t1 ++ t2). by rewrite Ht2, Ht1, <- app_assoc.
Qed.

(** X14: a run changes no path but the enumerated files and their
    replacement paths. *)
Theorem run_leaves_other_paths_alone
    (directory : Path) (t : tally) (w w' : World) :
  process_directory directory w = (Ok t, w') →
  ∃ image_files,
    image_files_of (files w) directory = Ok image_files
    ∧ ∀ p', (∀ p, p ∈ image_files → p' ≠ p ∧ Names.with_suffix p ".webp" ≠ Ok p') →
            files w' !! p' = files w !! p'.
Proof.
  intros Hrun.
  destruct (process_directory_completes _ _ _ _ Hrun) as (image_files & Hfiles & Hpool).
  destruct (process_directory_run directory image_files w Hfiles Hpool)
    as (results & w1 & tr & Hb & Hrun' & _).
  rewrite Hrun in Hrun'. injection Hrun' as _ ->.
  exists image_files. split; [done|]. intros p' Hp'. simpl.
  by rewrite (batch_run_frame _ _ _ _ _ Hb Hp').
Qed.

(** X15: [main] always ends with exit status 0 or 1, and with 0 exactly
    when the current directory, the enumeration and the start of the pool
    succeed: a file that fails does not change the exit status. *)
Theorem main_exit_status (w : World) :
  ∃ code w', main w = (Ok code, w')
    ∧ (code = 0 ∨ code = 1)
    ∧ (code = 0 ↔ ∃ directory image_files,
                    os_getcwd = Ok directory
                    ∧ image_files_of (files w) directory = Ok image_files
                    ∧ os_pool_start = Ok tt).
Proof.
  pose proof (main_run w) as H.
  destruct os_getcwd as [directory|e].
  2:{ eexists _, _. split; [exact H|]. split; [by right|].
      split; [done|]. by intros (? & ? & ? & _). }
  destruct (image_files_of (files w) directory) as [image_files|e] eqn:Hfiles.
  2:{ eexists _, _. split; [exact H|]. split; [by right|].
      split; [done|]. intros (d & l & [= <-] & Hl & _). congruence. }
  destruct os_pool_start as [[]|e].
  2:{ eexists _, _. split; [exact H|]. split; [by right|].
      split; [done|]. by intros (? & ? & _ & _ & ?). }
  destruct H as (results & w1 & t & _ & _ & _ & H).
  eexists _, _. split; [exact H|]. split; [by left|].
  split; [|done]. intros _. by exists directory, image_files.
Qed.

(** X16: a run that ends with status 0 logs the number of files found
    and, as its last four lines, the summary; the three counts of the
    summary add up to the number found. *)
Theorem summary_adds_up_to_the_files_found (w w' : World) :
  main w = (Ok 0, w') →
  ∃ directory image_files t s k e,
    os_getcwd = Ok directory
    ∧ image_files_of (files w) directory = Ok image_files
    ∧ trace w'
      = trace w
        ++ [EvLog (LogStarting directory); EvLog (LogFound (len image_files))]
        ++ t
        ++ [EvLog LogComplete; EvLog (LogConvertedCount s);
            EvLog (LogSkippedCount k); EvLog (LogErrorCount e)]
    ∧ s + k + e = len image_files.
Proof.
  intros Hmain. pose proof (main_run w) as H.
  destruct os_getcwd as [directory|e]; [|rewrite Hmain in H; done].
  destruct (image_files_of (files w) directory) as [image_files|e] eqn:Hfiles;
    [|rewrite Hmain in H; done].
  destruct os_pool_start as [[]|e]; [|rewrite Hmain in H; done].
  destruct H as (results & w1 & t & Hb & _ & _ & H).
  rewrite Hmain in H. injection H as ->.
  destruct (batch_run_trace _ _ _ _ Hb) as [tb Htb]. simpl in Htb.
  exists directory, image_files, (tb ++ t), (count is_converted results),
    (count is_skipped results), (count is_failed results).
  split; [done|]. split; [done|]. split.
  - simpl. rewrite Htb, <- !app_assoc. done.
  - rewrite count_partition. unfold len. by rewrite (batch_run_length _ _ _ _ Hb).
Qed.

(** X17: a tree without matching entries gives a run that ends with
    status 0, changes no file, encodes nothing and reports three zeros. *)
Theorem run_without_images (directory : Path) (w : World) :
  os_getcwd = Ok directory →
  image_files_of (files w) directory = Ok [] →
  os_pool_start = Ok tt →
  main w
  = (Ok 0,
     mkWorld (files w)
       (trace w ++ [EvLog (LogStarting directory); EvLog (LogFound 0);
                    EvLog LogComplete; EvLog (LogConvertedCount 0);
                    EvLog (LogSkippedCount 0); EvLog (LogErrorCount 0)])).
Proof.
  intros Hcwd Hfiles Hpool. unfold main, try_except.
  rewrite bind_lift, Hcwd, bind_emit.
  set (w0 := mkWorld (files w) (trace w ++ [EvLog (LogStarting directory)])).
  assert (process_directory directory w0
          = (Ok (0, 0, 0), mkWorld (files w) (trace w0 ++ [EvLog (LogFound 0)]))) as Hrun.
  { unfold process_directory.
    assert (find_image_files directory w0 = (Ok [], w0)) as Hfind
      by (rewrite find_image_files_value; simpl; by rewrite Hfiles).
    by rewrite (bind_ok _ _ _ _ _ Hfind), bind_emit, bind_lift, Hpool. }
  rewrite (bind_ok _ _ _ _ _ Hrun), !bind_emit. simpl. by rewrite <- !app_assoc.
Qed.

(** X18: with [pathlib]'s globbing no path is listed twice, so no file
    gets two tasks in one run. *)
Theorem no_file_is_enumerated_twice (cs : bool) (directory : Path) (w : World) :
  os_rglob = pathlib_rglob cs →
  ∃ image_files, find_image_files directory w = (Ok image_files, w)
                 ∧ NoDup image_files.
Proof.
  intros Hglob. rewrite find_image_files_value. unfold image_files_of. rewrite Hglob.
  destruct (pathlib_rglob_spec cs (files w) directory "*.jpg") as (jpg & Hjpg & Hin1).
  destruct (pathlib_rglob_spec cs (files w) directory "*.jpeg") as (jpeg & Hjpeg & Hin2).
  destruct (pathlib_rglob_spec cs (files w) directory "*.png") as (png & Hpng & Hin3).
  rewrite Hjpg, Hjpeg, Hpng. eexists. split; [reflexivity|].
  apply pathlib_rglob_NoDup in Hjpg, Hjpeg, Hpng.
  assert (∀ ext1 ext2 p,
            ext1 ∈ extensions → ext2 ∈ extensions → ext1 ≠ ext2 →
            Names.glob_match cs ("*" ++ ext1)%string (Names.path_name p) = true →
            Names.glob_match cs ("*" ++ ext2)%string (Names.path_name p) = true →
            False) as Hex.
  { intros ext1 ext2 p H1 H2 Hne Ha Hb. apply Hne.
    by eapply extensions_exclusive. }
  apply NoDup_app. split; [done|]. split.
  - intros p (_ & _ & _ & Ha)%Hin1 [(_ & _ & _ & Hb)%Hin2|(_ & _ & _ & Hb)%Hin3]%elem_of_app.
    + apply (Hex ".jpg" ".jpeg" p)%string; try done; unfold extensions; rewrite !elem_of_cons; auto.
    + apply (Hex ".jpg" ".png" p)%string; try done; unfold extensions; rewrite !elem_of_cons; auto.
  - apply NoDup_app. split; [done|]. split; [|done].
    intros p (_ & _ & _ & Ha)%Hin2 (_ & _ & _ & Hb)%Hin3.
    apply (Hex ".jpeg" ".png" p)%string; try done; unfold extensions; rewrite !elem_of_cons; auto.
Qed.

(** X20: at the end of a batch of image files in which no file is listed
    twice and no two files have one replacement path, every file is in
    the state its own task left: a converted file is replaced by its
    smaller encoding, any other file is as it was before the batch. *)
Theorem batch_keeps_each_task_state (case_sensitive : bool) (l : list Path)
    (w w' : World) (rs : list outcome) :
  batch_run l w rs w' →
  (∀ p, p ∈ l → is_image_name case_sensitive (Names.path_name p) = true) →
  NoDup l →
  (∀ p1 p2, p1 ∈ l → p2 ∈ l → p1 ≠ p2 →
            Names.with_suffix p1 ".webp" ≠ Names.with_suffix p2 ".webp") →
  ∀ (i : nat) (p : Path), l !! i = Some p →
    ∃ r, rs !! i = Some r ∧
      match r with
      | Some (true, _) =>
          ∃ q original_data webp_data,
            Names.with_suffix p ".webp" = Ok q
            ∧ files w !! p = Some (RegFile original_data)
            ∧ files w' !! q = Some (RegFile webp_data)
            ∧ len webp_data < len original_data
            ∧ files w' !! p = None
      | _ => files w' !! p = files w !! p
      end.
Proof.
  intros Hb Himg Hnodup Hshare i p Hi.
  destruct (list_elem_of_split_length l i p Hi) as (l1 & l2 & -> & ->).
  apply NoDup_app in Hnodup as (_ & Hl1 & [Hl2 _]%NoDup_cons).
  apply (batch_end_state case_sensitive l1 p l2 w w' rs Hb Himg).
  - intros Hin. apply (Hl1 p Hin). by left.
  - exact Hl2.
  - intros p' Hp'. apply Hshare.
    + rewrite elem_of_app. right. by right.
    + rewrite elem_of_app. right. by left.
    + intros ->. by apply Hl2.
Qed.

End RunFacts.

(** ** The calls of a task *)

Section CallFacts.

Context {Img : Type} {codec : Codec Img} {os : OS}.

(** One level calls the encoder once and the estimator at most once,
    whether the encoder raises or not. *)
Lemma search_step_calls (original_data : bytes) (rgb : Img) (st : best)
    (quality : Z) (w : World) :
  ∃ t, trace (search_step original_data rgb st quality w).2 = trace w ++ t
       ∧ saves t = [(false, quality)]
       ∧ (length (analyses t) ≤ 1)%nat.
Proof.
  unfold search_step. rewrite bind_emit, bind_lift.
  destruct (pil_save_webp rgb false quality) as [webp_data|e].
  2:{ exists [EvSave false quality]. simpl. repeat split; lia. }
  destruct (len webp_data <? st.1.1).
  2:{ exists [EvSave false quality]. simpl. repeat split; lia. }
  set (w1 := mkWorld (files w) (trace w ++ [EvSave false quality])).
  destruct (analyze_run original_data webp_data w1) as (t & Hrun & Hs & Ha & _).
  rewrite (bind_ok _ _ _ _ _ Hrun).
  exists (EvSave false quality :: EvAnalyze original_data webp_data :: t).
  split.
  - destruct (Qle_bool 0.95 (similarity_of original_data webp_data)); simpl;
      by rewrite <- app_assoc.
  - change (EvSave false quality :: EvAnalyze original_data webp_data :: t)
      with ([EvSave false quality; EvAnalyze original_data webp_data] ++ t).
    rewrite saves_app, analyses_app, Hs, Ha. simpl. split; [done|lia].
Qed.

Lemma search_calls (original_data : bytes) (rgb : Img) (levels : list Z) :
  ∀ (st : best) (w : World),
    ∃ t, trace (for_each levels (search_step original_data rgb) st w).2 = trace w ++ t
         ∧ saves t `prefix_of` map (λ q, (false, q)) levels
         ∧ (length (analyses t) ≤ length (saves t))%nat.
Proof.
  induction levels as [|q levels IH]; intros st w.
  - exists []. simpl. rewrite app_nil_r. split; [done|]. split; [done|lia].
  - destruct (search_step_calls original_data rgb st q w) as (t1 & Ht1 & Hs1 & Ha1).
    cbn [for_each]. unfold mbind, M_bind.
    destruct (search_step original_data rgb st q w) as [[st1|e] w1]; simpl in Ht1.
    + destruct (IH st1 w1) as (t2 & Ht2 & Hs2 & Ha2).
      exists (t1 ++ t2). rewrite Ht2, Ht1, <- app_assoc. split; [done|].
      rewrite saves_app, analyses_app, Hs1, !length_app. simpl. split.
      * by apply prefix_cons.
      * lia.
    + exists t1. simpl. split; [done|]. rewrite Hs1. split.
      * apply prefix_cons, prefix_nil.
      * simpl. lia.
Qed.

Lemma encode_candidate_calls (original_data : bytes) (img : Img) (w : World) :
  ∃ t, trace (encode_candidate original_data img w).2 = trace w ++ t
       ∧ (saves t `prefix_of` [(false, 90); (false, 85); (false, 80)]
          ∨ saves t = [(true, 90)] ∧ analyses t = [])
       ∧ (length (analyses t) ≤ length (saves t))%nat.
Proof.
  unfold encode_candidate. destruct (has_alpha_mode img).
  - rewrite bind_lift. destruct (pil_getchannel img "A").
    2:{ exists []. simpl. rewrite app_nil_r. split; [done|]. split; [|lia].
        left. apply prefix_nil. }
    rewrite bind_emit, bind_lift.
    exists [EvSave true 90].
    destruct (pil_save_webp img true 90); simpl; (split; [done|]); (split; [by right|lia]).
  - rewrite bind_lift. destruct (pil_convert img "RGB") as [rgb|].
    2:{ exists []. simpl. rewrite app_nil_r. split; [done|]. split; [|lia].
        left. apply prefix_nil. }
    destruct (search_calls original_data rgb quality_levels
                (len original_data, 90, None) w) as (t & Ht & Hs & Ha).
    exists t. unfold mbind, M_bind.
    destruct (for_each quality_levels _ _ w) as [[st|e] w1]; simpl in *;
      (split; [done|]); (split; [by left|done]).
Qed.

(** X19: a task calls the encoder at most three times, at 90, 85 and 80
    in this order, or once in lossless mode and then never the estimator;
    and it calls the estimator at most once per encoder call. *)
Theorem task_calls_are_bounded (p : Path) (w : World) :
  ∃ r w' t, convert_to_webp p w = (Ok r, w')
    ∧ trace w' = trace w ++ t
    ∧ (saves t `prefix_of` [(false, 90); (false, 85); (false, 80)]
       ∨ saves t = [(true, 90)] ∧ analyses t = [])
    ∧ (length (analyses t) ≤ length (saves t) ≤ 3)%nat.
Proof.
  assert (∀ t, (saves t `prefix_of` [(false, 90); (false, 85); (false, 80)]
                ∨ saves t = [(true, 90)] ∧ analyses t = []) →
               (length (saves t) ≤ 3)%nat) as Hbound.
  { intros t [Hpre|[-> _]]; [|simpl; lia].
    apply prefix_length in Hpre. simpl in Hpre. lia. }
  assert (∀ t t', saves t' = [] → analyses t' = [] →
            (saves t `prefix_of` [(false, 90); (false, 85); (false, 80)]
             ∨ saves t = [(true, 90)] ∧ analyses t = []) →
            (length (analyses t) ≤ length (saves t))%nat →
            (saves (t ++ t') `prefix_of` [(false, 90); (false, 85); (false, 80)]
             ∨ saves (t ++ t') = [(true, 90)] ∧ analyses (t ++ t') = [])
            ∧ (length (analyses (t ++ t')) ≤ length (saves (t ++ t')) ≤ 3)%nat) as Hext.
  { intros t t' Hs Ha Hshape Hle.
    rewrite saves_app, analyses_app, Hs, Ha, !app_nil_r.
    split; [done|]. split; [done|by apply Hbound]. }
  rewrite convert_to_webp_unfold. unfold convert_body.
  destruct (open_read_cases p w) as [(original_data & Hr & _)|(e & Hr)].
  2:{ rewrite (bind_raise _ _ _ _ _ Hr). eexists _, _, [_].
      split; [reflexivity|]. split; [done|]. simpl. split; [|lia].
      left. apply prefix_nil. }
  rewrite (bind_ok _ _ _ _ _ Hr).
  destruct (image_open_cases p w) as [(data' & img & Ho & _)|(e & Ho)].
  2:{ rewrite (bind_raise _ _ _ _ _ Ho). eexists _, _, [_].
      split; [reflexivity|]. split; [done|]. simpl. split; [|lia].
      left. apply prefix_nil. }
  rewrite (bind_ok _ _ _ _ _ Ho).
  destruct (encode_candidate_calls original_data img w) as (t & Ht & Hshape & Hle).
  unfold mbind at 1. unfold M_bind at 1.
  destruct (encode_candidate original_data img w) as [[candidate|e] w1]; simpl in Ht.
  2:{ eexists _, _, (t ++ [_]). split; [reflexivity|]. simpl.
      rewrite Ht, <- app_assoc. split; [done|]. by apply Hext. }
  destruct candidate as [webp_data|].
  2:{ eexists _, _, t. split; [reflexivity|]. split; [done|].
      split; [done|]. split; [done|by apply Hbound]. }
  destruct (len original_data <=? len webp_data).
  { eexists _, _, t. split; [reflexivity|]. split; [done|].
    split; [done|]. split; [done|by apply Hbound]. }
  rewrite bind_lift.
  destruct (Names.with_suffix p ".webp") as [q|e].
  2:{ eexists _, _, (t ++ [_]). split; [reflexivity|]. simpl.
      rewrite Ht, <- app_assoc. split; [done|]. by apply Hext. }
  unfold mbind at 1. unfold M_bind at 1.
  destruct (open_write_cases q webp_data w1) as [e|e n|].
  - eexists _, _, (t ++ [_]). split; [reflexivity|]. simpl.
    rewrite Ht, <- app_assoc. split; [done|]. by apply Hext.
  - eexists _, _, (t ++ [_; _]). split; [reflexivity|]. simpl.
    rewrite Ht, <- !app_assoc. split; [done|]. by apply Hext.
  - unfold mbind at 1. unfold M_bind at 1.
    match goal with |- context [os_remove p ?w2] =>
      destruct (os_remove_cases p w2) as [e|data Hdata] end.
    + eexists _, _, (t ++ [_; _]). split; [reflexivity|]. simpl.
      rewrite Ht, <- !app_assoc. split; [done|]. by apply Hext.
    + eexists _, _, (t ++ [_; _]). split; [reflexivity|]. simpl.
      rewrite Ht, <- !app_assoc. split; [done|]. by apply Hext.
Qed.

End CallFacts.

(** ** The further properties at concrete inputs *)

(** [a.jpg] against itself. *)
Lemma demo_identical_images :
  ∃ q, (analyze_image_quality (codec := demo_codec) demo_original demo_original
          demo_world).1 = Ok q
       ∧ (q == 1)%Q ∧ Qle_bool 0.95 q = true.
Proof.
  apply (identical_images_score_one (codec := demo_codec) demo_original
           (mkToy "RGB" (toy_triples (replicate 9 x10)))
           (mkToy "RGB" (toy_triples (replicate 9 x10))) demo_world).
  - reflexivity.
  - reflexivity.
  - discriminate.
Defined.

(** Four black pixels against the candidate at the boundary. *)
Lemma demo_score_below_one :
  (similarity_of (codec := demo_codec) boundary_original boundary_candidate == 1)%Q
  ↔ toy_triples ([xc5; x0e; x03; x01] ++ replicate 8 x00)
    = toy_triples (replicate 14 x00).
Proof.
  apply (score_one_iff_same_pixels (codec := demo_codec)
           boundary_original boundary_candidate
           (mkToy "RGB" (toy_triples (replicate 14 x00)))
           (mkToy "RGB" (toy_triples ([xc5; x0e; x03; x01] ++ replicate 8 x00)))
           (mkToy "RGB" (toy_triples (replicate 14 x00)))
           (mkToy "RGB" (toy_triples ([xc5; x0e; x03; x01] ++ replicate 8 x00)))
           (mkToy "RGB" (toy_triples ([xc5; x0e; x03; x01] ++ replicate 8 x00))));
    try reflexivity.
  discriminate.
Defined.

Lemma demo_gate_bound :
  Qle_bool 0.95 (similarity_of (codec := demo_codec) boundary_original boundary_candidate)
  = true
  ↔ 20 * accumulate_diff (toy_triples (replicate 14 x00))
           (toy_triples ([xc5; x0e; x03; x01] ++ replicate 8 x00))
    ≤ len (toy_triples (replicate 14 x00)) * 3 * 255 ^ 2.
Proof.
  apply (gate_is_a_bound_on_the_squared_differences (codec := demo_codec)
           boundary_original boundary_candidate
           (mkToy "RGB" (toy_triples (replicate 14 x00)))
           (mkToy "RGB" (toy_triples ([xc5; x0e; x03; x01] ++ replicate 8 x00)))
           (mkToy "RGB" (toy_triples (replicate 14 x00)))
           (mkToy "RGB" (toy_triples ([xc5; x0e; x03; x01] ++ replicate 8 x00)))
           (mkToy "RGB" (toy_triples ([xc5; x0e; x03; x01] ++ replicate 8 x00))));
    try reflexivity.
  discriminate.
Defined.

Lemma demo_score_symmetric :
  similarity_of (codec := demo_codec) boundary_original boundary_candidate
  = similarity_of (codec := demo_codec) boundary_candidate boundary_original.
Proof.
  apply (score_symmetric_for_equal_sizes (codec := demo_codec)
           boundary_original boundary_candidate
           (mkToy "RGB" (toy_triples (replicate 14 x00)))
           (mkToy "RGB" (toy_triples ([xc5; x0e; x03; x01] ++ replicate 8 x00)))
           (mkToy "RGB" (toy_triples (replicate 14 x00)))
           (mkToy "RGB" (toy_triples ([xc5; x0e; x03; x01] ++ replicate 8 x00))));
    reflexivity.
Defined.

(** The message of the conversion of [a.jpg]. *)
Lemma demo_savings :
  ∃ q original_data webp_data t,
    files demo_world !! ["pics"; "a.jpg"] = Some (RegFile original_data)
    ∧ trace (convert_to_webp (os := pathlib_os true ["pics"]) (codec := demo_codec)
               ["pics"; "a.jpg"] demo_world).2
      = t ++ [EvWrite q webp_data; EvRemove ["pics"; "a.jpg"]]
    ∧ Converted "a.jpg" (savings_percent 10 4)
      = Converted (Names.path_name ["pics"; "a.jpg"])
                  (savings_percent (len original_data) (len webp_data))
    ∧ (0 < savings_percent (len original_data) (len webp_data) <= 100)%Q.
Proof.
  apply (converted_reports_its_savings
           (os := pathlib_os true ["pics"]) (codec := demo_codec)
           ["pics"; "a.jpg"] (Converted "a.jpg" (savings_percent 10 4)) demo_world
           (convert_to_webp (os := pathlib_os true ["pics"]) (codec := demo_codec)
              ["pics"; "a.jpg"] demo_world).2).
  vm_compute. reflexivity.
Defined.


(** A file of zero bytes next to [a.jpg]. *)
Lemma demo_empty_file :
  let w := mkWorld (<[ ["pics"; "e.png"] := RegFile [] ]> demo_files) [] in
  ∃ r w' t,
    convert_to_webp (os := pathlib_os true ["pics"]) (codec := demo_codec)
      ["pics"; "e.png"] w = (Ok r, w')
    ∧ is_converted r = false
    ∧ files w' = files w
    ∧ trace w' = trace w ++ t ∧ disk_events t = [].
Proof.
  apply (empty_original_is_never_converted
           (os := pathlib_os true ["pics"]) (codec := demo_codec)
           ["pics"; "e.png"]
           (mkWorld (<[ ["pics"; "e.png"] := RegFile [] ]> demo_files) [])).
  vm_compute. reflexivity.
Defined.

(** The directory [album.png] during the task of [a.jpg]. *)
Lemma demo_other_path_untouched :
  files (convert_to_webp (os := pathlib_os true ["pics"]) (codec := demo_codec)
           ["pics"; "a.jpg"] demo_world).2 !! ["pics"; "album.png"]
  = files demo_world !! ["pics"; "album.png"].
Proof.
  apply (task_leaves_other_paths_alone
           (os := pathlib_os true ["pics"]) (codec := demo_codec)
           ["pics"; "a.jpg"] ["pics"; "album.png"] demo_world).
  - discriminate.
  - vm_compute. discriminate.
Defined.

(** [a.jpg] converted twice. *)
Lemma demo_second_conversion :
  let w1 := (convert_to_webp (os := pathlib_os true ["pics"]) (codec := demo_codec)
               ["pics"; "a.jpg"] demo_world).2 in
  (convert_to_webp (os := pathlib_os true ["pics"]) (codec := demo_codec)
     ["pics"; "a.jpg"] w1).1
  = Ok (Some (false, FailedToConvert "a.jpg" FileNotFoundError))
  ∧ ∃ e,
      convert_to_webp (os := pathlib_os true ["pics"]) (codec := demo_codec)
        ["pics"; "a.jpg"] w1
      = (Ok (Some (false, FailedToConvert (Names.path_name ["pics"; "a.jpg"]) e)),
         mkWorld (files w1)
           (trace w1 ++ [EvLog (LogProcessingError ["pics"; "a.jpg"] e)]))
      ∧ (e = FileNotFoundError ∨ e = NotADirectoryError)
      ∧ ((∀ (k : nat) data, (k < length ["pics"; "a.jpg"])%nat →
            files demo_world !! take k ["pics"; "a.jpg"] ≠ Some (RegFile data)) →
         e = FileNotFoundError).
Proof.
  split; [vm_compute; reflexivity|].
  apply (second_conversion_fails
           (os := pathlib_os true ["pics"]) (codec := demo_codec)
           true ["pics"; "a.jpg"] (Converted "a.jpg" (savings_percent 10 4)) demo_world).
  - reflexivity.
  - vm_compute. reflexivity.
Defined.

(** In a file map with an entry below a regular file, which no disk
    has, the second conversion fails with the other error. *)
Example second_conversion_below_a_file :
  let w := mkWorld (<[ ["a"] := RegFile demo_original ]>
                      (<[ ["a"; "b.jpg"] := RegFile demo_original ]> ∅)) [] in
  let first := convert_to_webp (os := pathlib_os true []) (codec := demo_codec)
                 ["a"; "b.jpg"] w in
  first.1 = Ok (Some (true, Converted "b.jpg" (savings_percent 10 4)))
  ∧ (convert_to_webp (os := pathlib_os true []) (codec := demo_codec)
       ["a"; "b.jpg"] first.2).1
    = Ok (Some (false, FailedToConvert "b.jpg" NotADirectoryError)).
Proof. split; vm_compute; reflexivity. Qed.

(** The search over the encodings of [a.jpg], as a minimum. *)
Lemma demo_smallest_passing :
  let passes q :=
    Qle_bool 0.95 (similarity_of (codec := demo_codec) demo_original (demo_enc q))
    = true in
  ∃ candidate w',
    encode_candidate (codec := demo_codec) demo_original
      (mkToy "RGB" (toy_triples (replicate 9 x10))) demo_world = (Ok candidate, w')
    ∧ (candidate = None
       ↔ ∀ q, q ∈ quality_levels → passes q → len demo_original ≤ len (demo_enc q))
    ∧ (∀ webp_data, candidate = Some webp_data →
         ∃ q, q ∈ quality_levels ∧ webp_data = demo_enc q
              ∧ len webp_data < len demo_original ∧ passes q
              ∧ ∀ q', q' ∈ quality_levels → passes q' →
                      len webp_data ≤ len (demo_enc q')).
Proof.
  apply (search_returns_a_smallest_passing_encoding (codec := demo_codec)
           demo_original (mkToy "RGB" (toy_triples (replicate 9 x10)))
           (mkToy "RGB" (toy_triples (replicate 9 x10))) demo_enc demo_world).
  - reflexivity.
  - reflexivity.
  - intros q _. reflexivity.
Defined.

(** What replaced [a.jpg]. *)
Lemma demo_replacement_passed :
  ∃ rgb quality webp_data q t,
    pil_convert (Codec := demo_codec) (mkToy "RGB" (toy_triples (replicate 9 x10))) "RGB"
    = Ok rgb
    ∧ quality ∈ quality_levels
    ∧ pil_save_webp (Codec := demo_codec) rgb false quality = Ok webp_data
    ∧ len webp_data < len demo_original
    ∧ Qle_bool 0.95 (similarity_of (codec := demo_codec) demo_original webp_data) = true
    ∧ trace (convert_to_webp (os := pathlib_os true ["pics"]) (codec := demo_codec)
               ["pics"; "a.jpg"] demo_world).2
      = t ++ [EvWrite q webp_data; EvRemove ["pics"; "a.jpg"]].
Proof.
  apply (opaque_replacement_passed_the_gate
           (os := pathlib_os true ["pics"]) (codec := demo_codec)
           ["pics"; "a.jpg"] demo_original
           (mkToy "RGB" (toy_triples (replicate 9 x10)))
           (Converted "a.jpg" (savings_percent 10 4)) demo_world).
  - vm_compute. reflexivity.
  - reflexivity.
  - reflexivity.
  - vm_compute. reflexivity.
Defined.

(** A transparent image whose lossless encoding has four bytes. *)
Lemma demo_alpha_replaced :
  convert_to_webp (os := pathlib_os true ["pics"])
    (codec := toy_codec (λ _ _, Ok (toy_file "A" 3 x10)))
    ["pics"; "logo.png"] alpha_world
  = (Ok (Some (true, Converted (Names.path_name ["pics"; "logo.png"])
                       (savings_percent (len alpha_original)
                                        (len (toy_file "A" 3 x10))))),
     mkWorld (delete ["pics"; "logo.png"]
                (<[ ["pics"; "logo.webp"] := RegFile (toy_file "A" 3 x10) ]>
                   (files alpha_world)))
             (trace alpha_world
              ++ [EvSave true 90; EvWrite ["pics"; "logo.webp"] (toy_file "A" 3 x10);
                  EvRemove ["pics"; "logo.png"]])).
Proof.
  apply (alpha_image_is_replaced_by_its_lossless_encoding
           (os := pathlib_os true ["pics"])
           (codec := toy_codec (λ _ _, Ok (toy_file "A" 3 x10)))
           ["pics"; "logo.png"] ["pics"; "logo.webp"] alpha_original
           (toy_file "A" 3 x10)
           (mkToy "RGBA" (toy_triples (replicate 9 x10)))
           (mkToy "RGBA" (toy_triples (replicate 9 x10))) alpha_world);
    try reflexivity; try (vm_compute; reflexivity); try (vm_compute; discriminate).
Defined.

(** The run over [pics]. *)
Lemma demo_run_leaves_others :
  ∃ image_files,
    image_files_of (os := pathlib_os true ["pics"]) (files demo_world) ["pics"]
    = Ok image_files
    ∧ ∀ p', (∀ p, p ∈ image_files → p' ≠ p ∧ Names.with_suffix p ".webp" ≠ Ok p') →
            files (process_directory (os := pathlib_os true ["pics"])
                     (codec := demo_codec) ["pics"] demo_world).2 !! p'
            = files demo_world !! p'.
Proof.
  apply (run_leaves_other_paths_alone
           (os := pathlib_os true ["pics"]) (codec := demo_codec)
           ["pics"] (1, 0, 1) demo_world
           (process_directory (os := pathlib_os true ["pics"]) (codec := demo_codec)
              ["pics"] demo_world).2).
  vm_compute. reflexivity.
Defined.

Lemma demo_summary :
  ∃ directory image_files t s k e,
    os_getcwd (OS := pathlib_os true ["pics"]) = Ok directory
    ∧ image_files_of (os := pathlib_os true ["pics"]) (files demo_world) directory
      = Ok image_files
    ∧ trace (main (os := pathlib_os true ["pics"]) (codec := demo_codec) demo_world).2
      = trace demo_world
        ++ [EvLog (LogStarting directory); EvLog (LogFound (len image_files))]
        ++ t
        ++ [EvLog LogComplete; EvLog (LogConvertedCount s);
            EvLog (LogSkippedCount k); EvLog (LogErrorCount e)]
    ∧ s + k + e = len image_files.
Proof.
  apply (summary_adds_up_to_the_files_found
           (os := pathlib_os true ["pics"]) (codec := demo_codec) demo_world
           (main (os := pathlib_os true ["pics"]) (codec := demo_codec) demo_world).2).
  vm_compute. reflexivity.
Defined.

(** A directory without images. *)
Lemma demo_run_without_images :
  let w := mkWorld (<[ ["pics"] := Directory ]> ∅) [] in
  main (os := pathlib_os true ["pics"]) (codec := demo_codec) w
  = (Ok 0,
     mkWorld (files w)
       (trace w ++ [EvLog (LogStarting ["pics"]); EvLog (LogFound 0);
                    EvLog LogComplete; EvLog (LogConvertedCount 0);
                    EvLog (LogSkippedCount 0); EvLog (LogErrorCount 0)])).
Proof.
  apply (run_without_images (os := pathlib_os true ["pics"]) (codec := demo_codec)
           ["pics"] (mkWorld (<[ ["pics"] := Directory ]> ∅) [])).
  - reflexivity.
  - vm_compute. reflexivity.
  - reflexivity.
Defined.

Lemma demo_no_duplicates :
  ∃ image_files,
    find_image_files (os := pathlib_os true ["pics"]) ["pics"] demo_world
    = (Ok image_files, demo_world)
    ∧ NoDup image_files.
Proof.
  apply (no_file_is_enumerated_twice (os := pathlib_os true ["pics"])
           true ["pics"] demo_world).
  reflexivity.
Defined.

(** The state of [a.jpg] at the end of the batch over [pics]. *)
Lemma demo_batch_end_state :
  ∃ rs w',
    batch_run (os := pathlib_os true ["pics"]) (codec := demo_codec)
      [["pics"; "a.jpg"]; ["pics"; "album.png"]] demo_world rs w'
    ∧ ∃ r, rs !! 0%nat = Some r ∧
        match r with
        | Some (true, _) =>
            ∃ q original_data webp_data,
              Names.with_suffix ["pics"; "a.jpg"] ".webp" = Ok q
              ∧ files demo_world !! ["pics"; "a.jpg"] = Some (RegFile original_data)
              ∧ files w' !! q = Some (RegFile webp_data)
              ∧ len webp_data < len original_data
              ∧ files w' !! ["pics"; "a.jpg"] = None
        | _ => files w' !! ["pics"; "a.jpg"] = files demo_world !! ["pics"; "a.jpg"]
        end.
Proof.
  destruct (executor_map_batch (os := pathlib_os true ["pics"]) (codec := demo_codec)
              [["pics"; "a.jpg"]; ["pics"; "album.png"]] demo_world)
    as (rs & w' & _ & Hb).
  exists rs, w'. split; [exact Hb|].
  apply (batch_keeps_each_task_state (os := pathlib_os true ["pics"])
           (codec := demo_codec) true
           [["pics"; "a.jpg"]; ["pics"; "album.png"]] demo_world w' rs Hb).
  - intros p' Hp'.
    apply elem_of_cons in Hp' as [->|Hp']; [reflexivity|].
    apply list_elem_of_singleton in Hp' as ->. reflexivity.
  - apply NoDup_cons. split.
    + intros Hin. apply list_elem_of_singleton in Hin. discriminate.
    + apply NoDup_singleton.
  - intros p1 p2 Hp1 Hp2 Hne.
    apply elem_of_cons in Hp1 as [->|Hp1];
      [|apply list_elem_of_singleton in Hp1 as ->];
      (apply elem_of_cons in Hp2 as [->|Hp2];
       [|apply list_elem_of_singleton in Hp2 as ->]);
      try done; vm_compute; discriminate.
  - reflexivity.
Defined.
